(** * Weather agent: the weather tool and the conversation loop

    A shallow embedding of [Agents/weather_agent.py].

    The program is glue around three external services: the [requests]
    HTTP client, a chat model with tool calling, and the graph runtime
    that alternates between the two nodes of the workflow.  The embedding
    keeps the program's own code ([get_weather], [call_model],
    [should_continue], the workflow edges, [main]) as executable
    definitions and takes the answers of the outside world (what the
    network returns, what the model says, what the user types) as
    parameters of the sections below.

    Python strings are modelled as [string].  The only operations the
    program applies to strings are concatenation, the replacement of one
    ASCII character by another, ASCII-range comparison after [lower()],
    and equality; on UTF-8 encoded text all of these act bytewise the way
    Python acts on code points (no code point outside ASCII lowercases to
    a string made only of the letters of "quit" or "exit"). *)

From Stdlib Require Import List String Ascii ZArith Lia Bool DecimalString.
Import ListNotations.
Local Open Scope string_scope.

Set Warnings "-register-all".

(** ** Python values *)

(** The values that travel through the program: what [response.json()]
    yields, the arguments of a tool call, and the argument of
    [get_weather].  A [dict] keeps its insertion order, which
    [json.dumps] prints, so it is an association list; a float is kept
    as the 64-bit pattern of its IEEE-754 double, the program never
    computes with one. *)
Inductive pyval : Type :=
| PNone
| PBool (b : bool)
| PInt (n : Z)
| PFloat (bits : Z)
| PStr (s : string)
| PList (items : list pyval)
| PDict (entries : list (string * pyval)).

(** A subscript as the program writes them: a string key or an integer
    index. *)
Inductive subscript : Type :=
| KStr (s : string)
| KInt (i : Z).

(** The exceptions that can travel through the program.  The classes
    that a handler of the program names are kept apart; every subclass
    of [requests.exceptions.RequestException] (connection errors,
    [HTTPError], the JSON decoding error of [response.json()]) is a
    [RequestException] with its [str()] text. *)
Inductive exn : Type :=
| RequestException (detail : string)
| KeyError (key : subscript)
| IndexError (detail : string)
| TypeError
| EOFError
| AttributeError
| GraphRecursionError
| ModelError (detail : string).

Inductive Res (A : Type) : Type :=
| Ok (a : A)
| Raise (e : exn).
Arguments Ok {A} a.
Arguments Raise {A} e.

Definition nl : string := String (ascii_of_nat 10) EmptyString.

Definition str_of_Z (z : Z) : string := NilZero.string_of_int (Z.to_int z).

(** [dict.get]-like lookup, first binding wins (a Python dict holds one
    binding per key). *)
Fixpoint assoc {V : Type} (k : string) (d : list (string * V)) : option V :=
  match d with
  | [] => None
  | (k', v) :: d' => if String.eqb k k' then Some v else assoc k d'
  end.

(** Python's index normalisation for sequences: a negative index counts
    from the end. *)
Definition seq_index (len : nat) (i : Z) : option nat :=
  let j := if (i <? 0)%Z then (i + Z.of_nat len)%Z else i in
  if ((0 <=? j) && (j <? Z.of_nat len))%Z then Some (Z.to_nat j) else None.

Definition str_item (s : string) (n : nat) : option pyval :=
  match String.get n s with
  | Some c => Some (PStr (String c EmptyString))
  | None => None
  end.

(** [v[k]]: subscription of a Python value.  A dict raises [KeyError] on
    an absent key, a list or a string raises [IndexError] out of range,
    and every other combination raises [TypeError]. *)
Definition getitem (v : pyval) (k : subscript) : Res pyval :=
  match v, k with
  | PDict d, KStr s =>
      match assoc s d with
      | Some x => Ok x
      | None => Raise (KeyError k)
      end
  | PDict _, KInt _ => Raise (KeyError k)
  | PList l, KInt i =>
      match seq_index (List.length l) i with
      | Some n =>
          match nth_error l n with
          | Some x => Ok x
          | None => Raise (IndexError "list index out of range")
          end
      | None => Raise (IndexError "list index out of range")
      end
  | PStr s, KInt i =>
      match seq_index (String.length s) i with
      | Some n =>
          match str_item s n with
          | Some x => Ok x
          | None => Raise (IndexError "string index out of range")
          end
      | None => Raise (IndexError "string index out of range")
      end
  | _, _ => Raise TypeError
  end.

(** [repr] of a subscript, which is what [str()] of a [KeyError] shows.
    Exact for keys without quotes, backslashes or unprintable
    characters; the keys of the program are such literals. *)
Definition repr_subscript (k : subscript) : string :=
  match k with
  | KStr s => "'" ++ s ++ "'"
  | KInt i => str_of_Z i
  end.

(** [str(e)] as an f-string renders a caught exception. *)
Definition str_exn (e : exn) : string :=
  match e with
  | RequestException d => d
  | KeyError k => repr_subscript k
  | IndexError d => d
  | TypeError => "TypeError"
  | EOFError => "EOFError"
  | AttributeError => "AttributeError"
  | GraphRecursionError => "GraphRecursionError"
  | ModelError d => d
  end.

(** [s.replace(old, new)] for one-character [old] and [new]. *)
Fixpoint str_replace (old new : ascii) (s : string) : string :=
  match s with
  | EmptyString => EmptyString
  | String c s' =>
      String (if Ascii.eqb c old then new else c) (str_replace old new s')
  end.

(** ** Chat messages *)

Record ToolCall : Type := mkToolCall {
  tc_name : string;
  tc_args : pyval;
  tc_id : string
}.

(** What [model.invoke] returns: an [AIMessage]. *)
Record AIMsg : Type := mkAI {
  ai_content : string;
  ai_tool_calls : list ToolCall
}.

Inductive Message : Type :=
| HumanMessage (content : string)
| AIMessage (m : AIMsg)
| ToolMessage (content : string) (name : string) (tool_call_id : string).

(** ** The outside world *)

(** What the program has done so far that an observer can see: the text
    written to standard output, the URLs it has handed to
    [requests.get] (the requests the library sends on its own when it
    follows a redirect are not recorded), and the message lists handed
    to the model, each oldest first. *)
Record World : Type := mkWorld {
  stdout : list string;
  http_log : list string;
  llm_log : list (list Message)
}.

Definition M (A : Type) : Type := World -> Res A * World.

Definition ret {A} (a : A) : M A := fun w => (Ok a, w).

Definition bind {A B} (m : M A) (f : A -> M B) : M B :=
  fun w =>
    match m w with
    | (Ok a, w') => f a w'
    | (Raise e, w') => (Raise e, w')
    end.

Definition raise {A} (e : exn) : M A := fun w => (Raise e, w).

Definition lift {A} (r : Res A) : M A := fun w => (r, w).

(** [try: m except ...: h]: the handler answers [Some] for the
    exceptions its clauses catch. *)
Definition try_except {A} (m : M A) (h : exn -> option (M A)) : M A :=
  fun w =>
    match m w with
    | (Ok a, w') => (Ok a, w')
    | (Raise e, w') =>
        match h e with
        | Some k => k w'
        | None => (Raise e, w')
        end
    end.

Notation "x <- m ;; k" := (bind m (fun x => k))
  (at level 61, m at next level, right associativity).
Notation "m ;;; k" := (bind m (fun _ => k))
  (at level 61, right associativity).

(** The world once more text has been written to standard output. *)
Definition with_output (texts : list string) (w : World) : World :=
  {| stdout := (stdout w ++ texts)%list;
     http_log := http_log w;
     llm_log := llm_log w |}.

Definition write (s : string) : M unit :=
  fun w => (Ok tt, with_output [s] w).

(** [print(s)] *)
Definition print (s : string) : M unit := write (s ++ nl).

(** ** The [requests] client *)

(** A response as the program uses it: its status line and what
    [response.json()] makes of the body, the decoded value or the text
    of the decoding error. *)
Record Response : Type := mkResponse {
  status_code : Z;
  reason : string;
  resp_url : string;
  json_body : pyval + string
}.

Inductive HttpOutcome : Type :=
| Failed (detail : string)
| Responded (r : Response).

(** [Response.raise_for_status()] of the [requests] library: an
    [HTTPError] for a status from 400 to 599, nothing otherwise. *)
Definition http_error_msg (r : Response) : option string :=
  if ((400 <=? status_code r) && (status_code r <? 500))%Z then
    Some (str_of_Z (status_code r) ++ " Client Error: " ++ reason r
            ++ " for url: " ++ resp_url r)
  else if ((500 <=? status_code r) && (status_code r <? 600))%Z then
    Some (str_of_Z (status_code r) ++ " Server Error: " ++ reason r
            ++ " for url: " ++ resp_url r)
  else None.

Definition raise_for_status (r : Response) : M unit :=
  match http_error_msg r with
  | Some msg => raise (RequestException msg)
  | None => ret tt
  end.

(** [Response.json()]: the decoding error of [requests] is a
    [RequestException].  A body that is JSON text and still cannot be
    turned into a value (an integer beyond the interpreter's digit
    limit, nesting beyond its recursion limit) is not represented. *)
Definition response_json (r : Response) : M pyval :=
  match json_body r with
  | inl v => ret v
  | inr msg => raise (RequestException msg)
  end.

Definition is_parse_exn (e : exn) : bool :=
  match e with
  | KeyError _ | IndexError _ => true
  | _ => false
  end.

Section Tool.

(** The [n]-th HTTP request of the run (counted from 0), a GET of the
    given URL, and what comes back. *)
Variable http_get : nat -> string -> HttpOutcome.

(** [json.dumps] of the Python standard library. *)
Variable json_dumps : pyval -> string.

(** [str()] of a Python value that is not a string. *)
Variable py_str : pyval -> string.

(** [requests.get(url)] *)
Definition requests_get (url : string) : M Response :=
  fun w =>
    let w' := {| stdout := stdout w;
                 http_log := (http_log w ++ [url])%list;
                 llm_log := llm_log w |} in
    match http_get (List.length (http_log w)) url with
    | Failed d => (Raise (RequestException d), w')
    | Responded r => (Ok r, w')
    end.

(** [f"{v}"] *)
Definition format_value (v : pyval) : string :=
  match v with
  | PStr s => s
  | _ => py_str v
  end.

Definition weather_url (city : string) : string :=
  "https://wttr.in/" ++ str_replace " " "+" city ++ "?format=j1".

(** The dict literal of the success branch. *)
Definition weather_report (city : string)
    (temp_c temp_f weather_description humidity wind_speed_kmph : pyval)
    : pyval :=
  PDict [ ("city", PStr city);
          ("temperature_celsius", temp_c);
          ("temperature_fahrenheit", temp_f);
          ("description", weather_description);
          ("humidity_percent", humidity);
          ("wind_speed_kmph", wind_speed_kmph) ].

(** The body of the [try] block once [data] is decoded. *)
Definition extract_report (city : string) (data : pyval) : Res pyval :=
  match getitem data (KStr "current_condition") with
  | Raise e => Raise e
  | Ok cc_list =>
  match getitem cc_list (KInt 0) with
  | Raise e => Raise e
  | Ok current_condition =>
  match getitem current_condition (KStr "weatherDesc") with
  | Raise e => Raise e
  | Ok descs =>
  match getitem descs (KInt 0) with
  | Raise e => Raise e
  | Ok desc0 =>
  match getitem desc0 (KStr "value") with
  | Raise e => Raise e
  | Ok weather_description =>
  match getitem current_condition (KStr "temp_C") with
  | Raise e => Raise e
  | Ok temp_c =>
  match getitem current_condition (KStr "temp_F") with
  | Raise e => Raise e
  | Ok temp_f =>
  match getitem current_condition (KStr "humidity") with
  | Raise e => Raise e
  | Ok humidity =>
  match getitem current_condition (KStr "windspeedKmph") with
  | Raise e => Raise e
  | Ok wind_speed_kmph =>
      Ok (weather_report city temp_c temp_f weather_description
            humidity wind_speed_kmph)
  end end end end end end end end end.

Definition parse_error_prefix : string :=
  "Error parsing weather data. The city might be invalid. Details: ".

Definition fetch_error_prefix : string := "Error fetching weather data: ".

(** The two [except] clauses of [get_weather]. *)
Definition weather_handler (e : exn) : option (M string) :=
  match e with
  | RequestException _ => Some (ret (fetch_error_prefix ++ str_exn e))
  | KeyError _ | IndexError _ =>
      Some (ret (parse_error_prefix ++ str_exn e))
  | _ => None
  end.

Definition get_weather (city : pyval) : M string :=
  print ("--- Calling Weather Tool for " ++ format_value city ++ " ---") ;;;
  match city with
  | PStr c =>
      let url := weather_url c in
      try_except
        (response <- requests_get url ;;
         raise_for_status response ;;;
         data <- response_json response ;;
         report <- lift (extract_report c data) ;;
         ret (json_dumps report))
        weather_handler
  | _ => ret "Error: City must be a string."
  end.

End Tool.

(** The world after the tool has announced itself and sent its
    request. *)
Definition after_request (city : string) (w : World) : World :=
  {| stdout :=
       (stdout w ++ [(("--- Calling Weather Tool for " ++ city ++ " ---") ++ nl)%string])%list;
     http_log := (http_log w ++ [weather_url city])%list;
     llm_log := llm_log w |}.

(** ** The agent graph *)

(** [str.lower()] *)
Definition lower_ascii (c : ascii) : ascii :=
  let n := nat_of_ascii c in
  if ((65 <=? n) && (n <=? 90))%nat then ascii_of_nat (n + 32) else c.

Fixpoint lower (s : string) : string :=
  match s with
  | EmptyString => EmptyString
  | String c s' => String (lower_ascii c) (lower s')
  end.

(** A state update as a node returns it, a dict from channel name to
    new messages, and a chunk of [app.stream], a dict from node name to
    the update of that node. *)
Definition Update : Type := list (string * list Message).
Definition Chunk : Type := list (string * Update).

Inductive Node : Type := agent | action.

Definition node_name (n : Node) : string :=
  match n with
  | agent => "agent"
  | action => "action"
  end.

(** [messages[-1].tool_calls]: only an [AIMessage] has the attribute. *)
Definition last_tool_calls (messages : list Message) : Res (list ToolCall) :=
  match List.last (List.map Some messages) None with
  | None => Raise (IndexError "list index out of range")
  | Some (AIMessage m) => Ok (ai_tool_calls m)
  | Some _ => Raise AttributeError
  end.

(** The reducer of [AgentState.messages], [operator.add]: the update is
    concatenated to the right of the current list, in a fresh list. *)
Definition add_messages (messages : list Message) (u : Update)
    : list Message :=
  match assoc "messages" u with
  | Some new => (messages ++ new)%list
  | None => messages
  end.

Section Graph.

Variable http_get : nat -> string -> HttpOutcome.
Variable json_dumps : pyval -> string.
Variable py_str : pyval -> string.

(** The [n]-th call of the model (counted from 0) on a message list:
    an [AIMessage], or the exception the client raises. *)
Variable model : nat -> list Message -> Res AIMsg.

(** The text the tool node puts in a [ToolMessage] when a call cannot
    be made: a tool name it does not know, or arguments that do not
    fit [get_weather]'s signature. *)
Variable invocation_error : ToolCall -> string.

(** The tool node's policy for an exception that escapes the tool:
    the text of an error [ToolMessage], or [None] to re-raise. *)
Variable handle_tool_errors : exn -> option string.

(** The number of node executions the runtime allows in one run. *)
Variable recursion_limit : nat.

(** [model.invoke(messages)] *)
Definition model_invoke (messages : list Message) : M AIMsg :=
  fun w =>
    (model (List.length (llm_log w)) messages,
     {| stdout := stdout w;
        http_log := http_log w;
        llm_log := (llm_log w ++ [messages])%list |}).

Definition call_model (messages : list Message) : M Update :=
  print "--- Calling LLM ---" ;;;
  response <- model_invoke messages ;;
  ret [("messages", [AIMessage response])].

Definition should_continue (messages : list Message) : M string :=
  print "--- Checking for Tool Calls ---" ;;;
  tool_calls <- lift (last_tool_calls messages) ;;
  match tool_calls with
  | _ :: _ => ret "continue"
  | [] => ret "end"
  end.

(** One call as [ToolNode(tools)] performs it, with [tools] holding
    [get_weather] alone: the tool is looked up by name, the arguments
    are checked against its signature ([city: str]), the function is
    run, and what it returns becomes the content of a [ToolMessage]. *)
Definition run_tool (call : ToolCall) : M Message :=
  let reply content := ToolMessage content (tc_name call) (tc_id call) in
  if String.eqb (tc_name call) "get_weather" then
    match tc_args call with
    | PDict args =>
        match assoc "city" args with
        | Some (PStr c) =>
            try_except
              (content <- get_weather http_get json_dumps py_str (PStr c) ;;
               ret (reply content))
              (fun e =>
                 match handle_tool_errors e with
                 | Some text => Some (ret (reply text))
                 | None => None
                 end)
        | _ => ret (reply (invocation_error call))
        end
    | _ => ret (reply (invocation_error call))
    end
  else ret (reply (invocation_error call)).

Fixpoint run_tools (calls : list ToolCall) : M (list Message) :=
  match calls with
  | [] => ret []
  | call :: calls' =>
      m <- run_tool call ;;
      ms <- run_tools calls' ;;
      ret (m :: ms)
  end.

(** [tool_node]: runs the tool calls of the last message, in order. *)
Definition tool_node (messages : list Message) : M Update :=
  tool_calls <- lift (last_tool_calls messages) ;;
  outputs <- run_tools tool_calls ;;
  ret [("messages", outputs)].

(** The conditional edges out of "agent". *)
Definition agent_edges : list (string * option Node) :=
  [("continue", Some action); ("end", None)].

(** [for chunk in app.stream({"messages": messages}): body]: the
    workflow starts at "agent"; after "agent" the runtime follows
    [should_continue], after "action" it returns to "agent"; each
    node's update is added to the state and handed to the loop body
    before the next node runs.  [fuel] is the number of node executions
    the runtime still allows.  The runtime checks its limit before it
    looks for the next node, so a run whose last node uses up the last
    allowed execution is cut like a run that wants to go on: both end
    with [GraphRecursionError].  [acc] is what the body carries from
    one iteration to the next. *)
Fixpoint run_graph {A : Type} (fuel : nat) (node : Node)
    (messages : list Message) (body : Chunk -> A -> M A) (acc : A)
    : M A :=
  match fuel with
  | O => raise GraphRecursionError
  | S fuel' =>
      match node with
      | agent =>
          update <- call_model messages ;;
          let messages' := add_messages messages update in
          branch <- should_continue messages' ;;
          acc' <- body [(node_name agent, update)] acc ;;
          match assoc branch agent_edges with
          | Some (Some next) => run_graph fuel' next messages' body acc'
          | _ =>
              match fuel' with
              | O => raise GraphRecursionError
              | S _ => ret acc'
              end
          end
      | action =>
          update <- tool_node messages ;;
          let messages' := add_messages messages update in
          acc' <- body [(node_name action, update)] acc ;;
          run_graph fuel' agent messages' body acc'
      end
  end.

(** [app = workflow.compile()], consumed by a [for] loop. *)
Definition app {A : Type} (messages : list Message)
    (body : Chunk -> A -> M A) (acc : A) : M A :=
  run_graph recursion_limit agent messages body acc.

End Graph.

(** ** The interaction loop *)

(** [user_input.lower() in ["quit", "exit"]] *)
Definition is_exit_command (user_input : string) : bool :=
  existsb (String.eqb (lower user_input)) ["quit"; "exit"].

Definition goodbye : string := "🤖 Goodbye!".

Definition fallback : string :=
  nl ++ "AI: I seem to have run into an issue processing that. Please try again."
     ++ nl.

Section Loop.

(** [message.pretty_repr()], the text [pretty_print] writes. *)
Variable pretty_repr : Message -> string.

(** The compiled graph as the loop sees it: something a [for] loop
    iterates, running its body on every chunk. *)
Variable stream :
  list Message ->
  (Chunk -> option Message -> M (option Message)) ->
  option Message -> M (option Message).

(** The body of [for message in value['messages']]. *)
Definition on_message (message : Message) (final_response : option Message)
    : M (option Message) :=
  let final_response' :=
    match message with
    | AIMessage m =>
        match ai_tool_calls m with
        | [] => Some message
        | _ :: _ => final_response
        end
    | _ => final_response
    end in
  print (pretty_repr message) ;;;
  ret final_response'.

Fixpoint on_messages (messages : list Message)
    (final_response : option Message) : M (option Message) :=
  match messages with
  | [] => ret final_response
  | message :: rest =>
      final_response' <- on_message message final_response ;;
      on_messages rest final_response'
  end.

(** The body of [for key, value in chunk.items()]. *)
Definition on_item (item : string * Update)
    (final_response : option Message) : M (option Message) :=
  let (key, value) := item in
  print ("Output from node '" ++ key ++ "':") ;;;
  match assoc "messages" value with
  | Some messages => on_messages messages final_response
  | None => ret final_response
  end.

Fixpoint on_items (items : list (string * Update))
    (final_response : option Message) : M (option Message) :=
  match items with
  | [] => ret final_response
  | item :: rest =>
      final_response' <- on_item item final_response ;;
      on_items rest final_response'
  end.

(** The body of [for chunk in app.stream(graph_input)]. *)
Definition on_chunk (chunk : Chunk) (final_response : option Message)
    : M (option Message) :=
  final_response' <- on_items chunk final_response ;;
  print "---" ;;;
  ret final_response'.

Definition message_content (m : Message) : string :=
  match m with
  | HumanMessage c => c
  | AIMessage a => ai_content a
  | ToolMessage c _ _ => c
  end.

(** One pass through the body of [while True] for an input that is
    not an exit keyword; the result is [conversation_history] as the
    pass leaves it. *)
Definition turn (user_input : string) (conversation_history : list Message)
    : M (list Message) :=
  let conversation_history :=
    (conversation_history ++ [HumanMessage user_input])%list in
  print (nl ++ "--- Agent Thinking ---") ;;;
  final_response <- stream conversation_history on_chunk None ;;
  (* [if final_response:] -- a message object is truthy, [None] is not *)
  match final_response with
  | Some m =>
      print (nl ++ "AI: " ++ message_content m ++ nl) ;;;
      ret (conversation_history ++ [m])%list
  | None =>
      print fallback ;;;
      ret conversation_history
  end.

(** [while True: ...] over the lines the user types; reading past the
    last line raises [EOFError].  The result is
    [conversation_history] at the [break]. *)
Fixpoint main_loop (inputs : list string)
    (conversation_history : list Message) : M (list Message) :=
  match inputs with
  | [] => write "You: " ;;; raise EOFError
  | user_input :: rest =>
      write "You: " ;;;
      if is_exit_command user_input then
        print goodbye ;;;
        ret conversation_history
      else
        conversation_history' <- turn user_input conversation_history ;;
        main_loop rest conversation_history'
  end.

Definition banner : string :=
  "🤖 Weather AI Agent is ready. Type 'quit' or 'exit' to stop.".

Definition main (inputs : list string) : M (list Message) :=
  print banner ;;;
  main_loop inputs [].

(** The first passes through the loop, one for each of the given
    inputs, none of which is an exit keyword; the result is
    [conversation_history] when the loop is about to read again. *)
Fixpoint turns (inputs : list string) (conversation_history : list Message)
    : M (list Message) :=
  match inputs with
  | [] => ret conversation_history
  | user_input :: rest =>
      write "You: " ;;;
      conversation_history' <- turn user_input conversation_history ;;
      turns rest conversation_history'
  end.

(** A graph that yields the given chunks, for any input. *)
Fixpoint for_each (chunks : list Chunk)
    (body : Chunk -> option Message -> M (option Message))
    (acc : option Message) : M (option Message) :=
  match chunks with
  | [] => ret acc
  | chunk :: rest =>
      acc' <- body chunk acc ;;
      for_each rest body acc'
  end.

End Loop.

(** A final answer: an [AIMessage] that asks for no tool. *)
Definition is_final_answer (m : Message) : bool :=
  match m with
  | AIMessage a =>
      match ai_tool_calls a with
      | [] => true
      | _ :: _ => false
      end
  | _ => false
  end.

(** The messages a chunk carries, in the order the loop visits them. *)
Fixpoint chunk_messages (chunk : Chunk) : list Message :=
  match chunk with
  | [] => []
  | (_, value) :: rest =>
      match assoc "messages" value with
      | Some messages => (messages ++ chunk_messages rest)%list
      | None => chunk_messages rest
      end
  end.

(** The last final answer among [messages], or [acc] when there is
    none. *)
Fixpoint last_final (messages : list Message) (acc : option Message)
    : option Message :=
  match messages with
  | [] => acc
  | m :: rest => last_final rest (if is_final_answer m then Some m else acc)
  end.

(** The world once the model has been called on [messages]. *)
Definition asked (messages : list Message) (w : World) : World :=
  {| stdout := stdout w;
     http_log := http_log w;
     llm_log := (llm_log w ++ [messages])%list |}.

(** A [ToolMessage] that answers a tool call carries its name and id. *)
Definition answers (call : ToolCall) (out : Message) : Prop :=
  exists content, out = ToolMessage content (tc_name call) (tc_id call).

(** One list of messages starts with another. *)
Definition extends (base : list Message) (l : list Message) : Prop :=
  exists rest, l = (base ++ rest)%list.

(** What the model log of one run shows about tool requests.  [log] is
    the part of the log the run has written, and the model had been
    called [base] times before.  Whenever a call of the run answers
    with a request for tools, the next call is on the same messages
    followed by the request and by one result per tool call, and every
    later call of the run is on an extension of that list. *)
Definition exchange_kept (model : nat -> list Message -> Res AIMsg)
    (base : nat) (log : list (list Message)) : Prop :=
  forall i input request,
    nth_error log i = Some input ->
    model (base + i) input = Ok request ->
    ai_tool_calls request <> [] ->
    exists outs,
      Forall2 answers (ai_tool_calls request) outs
      /\ nth_error log (S i)
         = Some (input ++ AIMessage request :: outs)%list
      /\ (forall j later,
            i < j ->
            nth_error log j = Some later ->
            extends (input ++ AIMessage request :: outs) later).

(** ** The exit keywords, as the interface description words them *)

Definition is_upper (c : ascii) : bool :=
  ((65 <=? nat_of_ascii c) && (nat_of_ascii c <=? 90))%nat.

Definition is_lower (c : ascii) : bool :=
  ((97 <=? nat_of_ascii c) && (nat_of_ascii c <=? 122))%nat.

Fixpoint all_lower (s : string) : bool :=
  match s with
  | EmptyString => true
  | String c s' => is_lower c && all_lower s'
  end.

(** Two characters are the same up to case: equal, or a capital letter
    and its small letter. *)
Definition same_ignoring_case (a b : ascii) : bool :=
  Ascii.eqb a b
  || (is_upper a && (nat_of_ascii a + 32 =? nat_of_ascii b)%nat)
  || (is_upper b && (nat_of_ascii b + 32 =? nat_of_ascii a)%nat).

Fixpoint eq_ignoring_case (s t : string) : bool :=
  match s, t with
  | EmptyString, EmptyString => true
  | String a s', String b t' => same_ignoring_case a b && eq_ignoring_case s' t'
  | _, _ => false
  end.

(** The whole line is "quit" or "exit", whatever the case of its
    letters. *)
Definition exit_keyword (line : string) : bool :=
  eq_ignoring_case line "quit" || eq_ignoring_case line "exit".

(** A substring test in the form the statements below use. *)
Definition mentions (s needle : string) : Prop :=
  exists before after, s = before ++ needle ++ after.

(** ** Sample environments

    Concrete answers of the outside world, for running the definitions
    above on the scenarios of the interface description. *)
Module Sample.

Definition quote : string := String (ascii_of_nat 34) EmptyString.

(** [json.dumps] on the values the scenarios use: strings that need
    no escaping, integers, lists and dicts (floats are not used and
    are printed as [null]). *)
Fixpoint dumps (v : pyval) : string :=
  match v with
  | PNone => "null"
  | PBool true => "true"
  | PBool false => "false"
  | PInt n => str_of_Z n
  | PFloat _ => "null"
  | PStr s => quote ++ s ++ quote
  | PList items =>
      "[" ++ (fix go (l : list pyval) : string :=
                match l with
                | [] => ""
                | [x] => dumps x
                | x :: rest => dumps x ++ ", " ++ go rest
                end) items ++ "]"
  | PDict entries =>
      "{" ++ (fix go (l : list (string * pyval)) : string :=
                match l with
                | [] => ""
                | [(k, x)] => quote ++ k ++ quote ++ ": " ++ dumps x
                | (k, x) :: rest =>
                    quote ++ k ++ quote ++ ": " ++ dumps x ++ ", " ++ go rest
                end) entries ++ "}"
  end.

Definition py_str (v : pyval) : string := dumps v.

Definition condition (desc temp_c temp_f humidity wind : string) : pyval :=
  PDict [ ("weatherDesc", PList [PDict [("value", PStr desc)]]);
          ("temp_C", PStr temp_c);
          ("temp_F", PStr temp_f);
          ("humidity", PStr humidity);
          ("windspeedKmph", PStr wind) ].

Definition sunny_body : pyval :=
  PDict [("current_condition", PList [condition "Sunny" "18" "64" "40" "10"])].

Definition respond (status : Z) (why : string) (body : pyval + string)
    : nat -> string -> HttpOutcome :=
  fun _ url =>
    Responded {| status_code := status; reason := why; resp_url := url;
                 json_body := body |}.

(** The provider answers every request with the sunny report. *)
Definition sunny : nat -> string -> HttpOutcome :=
  respond 200 "OK" (inl sunny_body).

(** The provider is unreachable. *)
Definition refused : nat -> string -> HttpOutcome :=
  fun _ _ => Failed "Connection refused".

(** The provider does not know the place. *)
Definition not_found : nat -> string -> HttpOutcome :=
  respond 404 "Not Found" (inr "Expecting value: line 1 column 1 (char 0)").

(** A 300 answer that carries a full report in its body. *)
Definition multiple_choices : nat -> string -> HttpOutcome :=
  respond 300 "Multiple Choices" (inl sunny_body).

(** A 200 answer without the [current_condition] key. *)
Definition no_condition : nat -> string -> HttpOutcome :=
  respond 200 "OK" (inl (PDict [("request", PList [])])).

(** A 200 answer whose [current_condition] is [null]. *)
Definition null_condition : nat -> string -> HttpOutcome :=
  respond 200 "OK" (inl (PDict [("current_condition", PNone)])).

Definition w0 : World := {| stdout := []; http_log := []; llm_log := [] |}.

Definition paris_call : ToolCall :=
  {| tc_name := "get_weather";
     tc_args := PDict [("city", PStr "Paris")];
     tc_id := "call_1" |}.

Definition paris_request : AIMsg :=
  {| ai_content := ""; ai_tool_calls := [paris_call] |}.

Definition paris_answer : AIMsg :=
  {| ai_content := "It's sunny in Paris."; ai_tool_calls := [] |}.

(** A model that asks for the weather until it has seen a tool
    result after the last user message, and then answers. *)
Definition tool_then_answer : nat -> list Message -> Res AIMsg :=
  fun _ messages =>
    match List.last (List.map Some messages) None with
    | Some (ToolMessage _ _ _) => Ok paris_answer
    | _ => Ok paris_request
    end.

(** A model that never stops asking for the tool. *)
Definition always_tool : nat -> list Message -> Res AIMsg :=
  fun _ _ => Ok paris_request.

Definition invocation_error (call : ToolCall) : string :=
  "Error: " ++ tc_name call ++ " could not be called.".

Definition handle_tool_errors (e : exn) : option string :=
  Some ("Error: " ++ str_exn e).

Definition pretty_repr (m : Message) : string :=
  match m with
  | HumanMessage c => "Human: " ++ c
  | AIMessage a => "Ai: " ++ ai_content a
  | ToolMessage c _ _ => "Tool: " ++ c
  end.

(** A graph that yields no chunk at all. *)
Definition silent (_ : list Message)
    (_ : Chunk -> option Message -> M (option Message))
    (acc : option Message) : M (option Message) := ret acc.

(** The compiled workflow with the sunny provider and the model that
    asks once. *)
Definition sunny_app := app (A := option Message) sunny dumps py_str tool_then_answer
                             invocation_error handle_tool_errors 25.

End Sample.

(** ** Notions for the statements about whole runs *)

(** A URL that [get_weather] builds. *)
Definition weather_request (url : string) : Prop :=
  exists city, url = weather_url city.

Fixpoint contains_char (c : ascii) (s : string) : bool :=
  match s with
  | EmptyString => false
  | String c' s' => Ascii.eqb c' c || contains_char c s'
  end.

Fixpoint all_letters (s : string) : bool :=
  match s with
  | EmptyString => true
  | String c s' => (is_upper c || is_lower c) && all_letters s'
  end.

(** User lines and answers in turn. *)
Fixpoint dialogue (inputs : list string) (replies : list AIMsg)
    : list Message :=
  match inputs, replies with
  | line :: inputs', reply :: replies' =>
      HumanMessage line :: AIMessage reply :: dialogue inputs' replies'
  | _, _ => []
  end.

(** The shape of a decoded body from which all fields can be read. *)
Definition report_shape (data : pyval)
    (desc temp_c temp_f humidity wind : pyval) : Prop :=
  exists body condition more_conditions first_desc more_descs,
    data = PDict body
    /\ assoc "current_condition" body
       = Some (PList (PDict condition :: more_conditions))
    /\ assoc "weatherDesc" condition
       = Some (PList (PDict first_desc :: more_descs))
    /\ assoc "value" first_desc = Some desc
    /\ assoc "temp_C" condition = Some temp_c
    /\ assoc "temp_F" condition = Some temp_f
    /\ assoc "humidity" condition = Some humidity
    /\ assoc "windspeedKmph" condition = Some wind.

(** ** Further sample environments *)
Module Scenario.

(** A model that answers at once. *)
Definition direct : nat -> list Message -> Res AIMsg :=
  fun _ _ => Ok Sample.paris_answer.

(** A 200 answer whose [current_condition] list is empty. *)
Definition empty_conditions : nat -> string -> HttpOutcome :=
  Sample.respond 200 "OK" (inl (PDict [("current_condition", PList [])])).

End Scenario.

(** * Properties *)

(** ** Subscription and strings *)

Lemma getitem_first (x : pyval) (l : list pyval) :
  getitem (PList (x :: l)) (KInt 0) = Ok x.
Proof. reflexivity. Qed.

Lemma getitem_key (d : list (string * pyval)) (k : string) (x : pyval) :
  assoc k d = Some x -> getitem (PDict d) (KStr k) = Ok x.
Proof. intros H. simpl. now rewrite H. Qed.

Lemma getitem_missing (d : list (string * pyval)) (k : string) :
  assoc k d = None -> getitem (PDict d) (KStr k) = Raise (KeyError (KStr k)).
Proof. intros H. simpl. now rewrite H. Qed.

(** Subscription raises nothing but the three exceptions of its
    definition. *)
Lemma getitem_raises (v : pyval) (k : subscript) (e : exn) :
  getitem v k = Raise e -> e = TypeError \/ is_parse_exn e = true.
Proof.
  unfold getitem.
  destruct v, k; try (intros [= <-]; now left).
  - destruct (seq_index _ _); [destruct (str_item _ _)|];
      intros [= <-]; now right.
  - destruct (seq_index _ _); [destruct (nth_error _ _)|];
      intros [= <-]; now right.
  - destruct (assoc _ _); intros [= <-]; now right.
  - intros [= <-]; now right.
Qed.

Ltac step_getitem H :=
  match type of H with
  | context [getitem ?v ?k] =>
      let E := fresh "E" in
      destruct (getitem v k) eqn:E;
      [ | injection H as <-; exact (getitem_raises _ _ _ E) ]
  end.

Lemma extract_report_raises (city : string) (data : pyval) (e : exn) :
  extract_report city data = Raise e ->
  e = TypeError \/ is_parse_exn e = true.
Proof.
  unfold extract_report. intros H.
  do 9 step_getitem H.
  discriminate H.
Qed.

Lemma str_replace_length (old new : ascii) (s : string) :
  String.length (str_replace old new s) = String.length s.
Proof. induction s as [|c s IH]; simpl; congruence. Qed.

Lemma str_replace_get (old new : ascii) (s : string) (n : nat) :
  String.get n (str_replace old new s)
  = option_map (fun c => if Ascii.eqb c old then new else c) (String.get n s).
Proof.
  revert n. induction s as [|c s IH]; intros n; simpl.
  - reflexivity.
  - destruct n; simpl; [reflexivity | apply IH].
Qed.

(** ** The weather tool *)

Section ToolFacts.

Variable http_get : nat -> string -> HttpOutcome.
Variable json_dumps : pyval -> string.
Variable py_str : pyval -> string.

Local Abbreviation get_weather' := (get_weather http_get json_dumps py_str).

(** What a call with a string does, by the answer of the network. *)
Lemma get_weather_str (city : string) (w : World) :
  get_weather' (PStr city) w =
  match http_get (List.length (http_log w)) (weather_url city) with
  | Failed d => (Ok (fetch_error_prefix ++ d), after_request city w)
  | Responded r =>
      match http_error_msg r with
      | Some msg => (Ok (fetch_error_prefix ++ msg), after_request city w)
      | None =>
          match json_body r with
          | inr msg => (Ok (fetch_error_prefix ++ msg), after_request city w)
          | inl data =>
              match extract_report city data with
              | Ok report => (Ok (json_dumps report), after_request city w)
              | Raise e =>
                  if is_parse_exn e
                  then (Ok (parse_error_prefix ++ str_exn e),
                        after_request city w)
                  else (Raise TypeError, after_request city w)
              end
          end
      end
  end.
Proof.
  unfold get_weather, try_except, bind, print, write, requests_get,
    raise_for_status, response_json, lift, ret, raise, after_request.
  cbn [format_value http_log stdout llm_log].
  destruct (http_get _ _) as [d|r]; [reflexivity|].
  destruct (http_error_msg r); [reflexivity|].
  destruct (json_body r) as [data|msg]; [|reflexivity].
  destruct (extract_report city data) as [report|e] eqn:E; [reflexivity|].
  destruct (extract_report_raises _ _ _ E) as [->|P]; [reflexivity|].
  rewrite P. destruct e; try discriminate P; reflexivity.
Qed.

Lemma http_error_msg_none (r : Response) :
  (status_code r < 400 \/ 600 <= status_code r)%Z ->
  http_error_msg r = None.
Proof.
  intros H. unfold http_error_msg.
  destruct (400 <=? status_code r)%Z eqn:A,
           (status_code r <? 500)%Z eqn:B,
           (500 <=? status_code r)%Z eqn:C,
           (status_code r <? 600)%Z eqn:D; simpl; try reflexivity; lia.
Qed.

Lemma http_error_msg_some (r : Response) :
  (400 <= status_code r < 600)%Z ->
  exists msg, http_error_msg r = Some msg.
Proof.
  intros H. unfold http_error_msg.
  destruct (400 <=? status_code r)%Z eqn:A,
           (status_code r <? 500)%Z eqn:B,
           (500 <=? status_code r)%Z eqn:C,
           (status_code r <? 600)%Z eqn:D; simpl; eauto; lia.
Qed.

Lemma mentions_invalid_city (details : string) :
  mentions (parse_error_prefix ++ details) "The city might be invalid".
Proof.
  exists "Error parsing weather data. ", (". Details: " ++ details).
  reflexivity.
Qed.

(** C1: when the provider answers with a success status and a JSON
    object whose [current_condition] list starts with an object
    holding [weatherDesc[0].value], [temp_C], [temp_F], [humidity]
    and [windspeedKmph], the tool returns the serialisation of the
    report whose six fields are the city as the caller gave it and
    those five values, unchanged. *)
Theorem get_weather_report_fields
    (city : string) (w : World) (r : Response)
    (body condition first_desc : list (string * pyval))
    (more_conditions more_descs : list pyval)
    (desc temp_c temp_f humidity wind : pyval) :
  http_get (List.length (http_log w)) (weather_url city) = Responded r ->
  (200 <= status_code r < 300)%Z ->
  json_body r = inl (PDict body) ->
  assoc "current_condition" body
    = Some (PList (PDict condition :: more_conditions)) ->
  assoc "weatherDesc" condition
    = Some (PList (PDict first_desc :: more_descs)) ->
  assoc "value" first_desc = Some desc ->
  assoc "temp_C" condition = Some temp_c ->
  assoc "temp_F" condition = Some temp_f ->
  assoc "humidity" condition = Some humidity ->
  assoc "windspeedKmph" condition = Some wind ->
  fst (get_weather' (PStr city) w)
  = Ok (json_dumps
          (PDict [ ("city", PStr city);
                   ("temperature_celsius", temp_c);
                   ("temperature_fahrenheit", temp_f);
                   ("description", desc);
                   ("humidity_percent", humidity);
                   ("wind_speed_kmph", wind) ])).
Proof.
  intros Hget Hst Hbody Hcc Hwd Hval Htc Htf Hhum Hwind.
  rewrite get_weather_str, Hget.
  rewrite http_error_msg_none by lia.
  rewrite Hbody.
  unfold extract_report.
  rewrite (getitem_key _ _ _ Hcc), getitem_first.
  rewrite (getitem_key _ _ _ Hwd), getitem_first.
  rewrite (getitem_key _ _ _ Hval), (getitem_key _ _ _ Htc),
    (getitem_key _ _ _ Htf), (getitem_key _ _ _ Hhum),
    (getitem_key _ _ _ Hwind).
  reflexivity.
Qed.

(** C5: an argument that is not a string makes the tool return its
    fixed error text at once; the list of HTTP requests is left as it
    was. *)
Theorem get_weather_rejects_non_string (city : pyval) (w : World) :
  (forall s, city <> PStr s) ->
  get_weather' city w
  = (Ok "Error: City must be a string.",
     {| stdout :=
          (stdout w
             ++ [(("--- Calling Weather Tool for " ++ py_str city ++ " ---") ++ nl)%string])%list;
        http_log := http_log w;
        llm_log := llm_log w |}).
Proof.
  intros H.
  destruct city; try reflexivity.
  now destruct (H s).
Qed.

(** X17: when the provider answers with a status
    outside 400..599 and a JSON body, and reading the fields fails
    with a missing key or an index out of range -- a body that is an
    object without [current_condition] is the first such case -- the
    tool returns the parse-error text, which says that the city might
    be invalid, followed by the text of the exception. *)
Theorem get_weather_parse_error
    (city : string) (w : World) (r : Response) (data : pyval) :
  http_get (List.length (http_log w)) (weather_url city) = Responded r ->
  (status_code r < 400 \/ 600 <= status_code r)%Z ->
  json_body r = inl data ->
  (forall body, data = PDict body ->
     assoc "current_condition" body = None ->
     fst (get_weather' (PStr city) w)
     = Ok ("Error parsing weather data. The city might be invalid. "
             ++ "Details: 'current_condition'"))
  /\
  (forall e, extract_report city data = Raise e ->
     is_parse_exn e = true ->
     fst (get_weather' (PStr city) w)
       = Ok (parse_error_prefix ++ str_exn e)
     /\ mentions (parse_error_prefix ++ str_exn e)
          "The city might be invalid").
Proof.
  intros Hget Hst Hbody.
  assert (G : forall e, extract_report city data = Raise e ->
              is_parse_exn e = true ->
              fst (get_weather' (PStr city) w)
              = Ok (parse_error_prefix ++ str_exn e)).
  { intros e He Hp.
    rewrite get_weather_str, Hget, (http_error_msg_none _ Hst), Hbody, He, Hp.
    reflexivity. }
  split.
  - intros body -> Hnone.
    apply (G (KeyError (KStr "current_condition"))); [|reflexivity].
    unfold extract_report. now rewrite (getitem_missing _ _ Hnone).
  - intros e He Hp. split; [now apply G | apply mentions_invalid_city].
Qed.

(** C7, as the code has it: a request that fails in transport, and a
    response with a status from 400 to 599, both make the tool return
    the fetch-error text followed by the text of the failure; nothing
    is raised and no report is returned. *)
Theorem get_weather_network_error (city : string) (w : World) :
  (forall detail,
     http_get (List.length (http_log w)) (weather_url city) = Failed detail ->
     get_weather' (PStr city) w
     = (Ok ("Error fetching weather data: " ++ detail),
        after_request city w))
  /\
  (forall r,
     http_get (List.length (http_log w)) (weather_url city) = Responded r ->
     (400 <= status_code r < 600)%Z ->
     exists detail,
       http_error_msg r = Some detail
       /\ get_weather' (PStr city) w
          = (Ok ("Error fetching weather data: " ++ detail),
             after_request city w)).
Proof.
  split.
  - intros detail H. now rewrite get_weather_str, H.
  - intros r H Hst.
    destruct (http_error_msg_some _ Hst) as [msg Hmsg].
    exists msg. split; [exact Hmsg|].
    now rewrite get_weather_str, H, Hmsg.
Qed.

(** C8: the one request the tool sends for a string [city] goes to a
    URL that depends on [city] alone: the endpoint, then the city with
    each space replaced by [+] and every other character kept, then
    the query that asks for JSON. *)
Theorem get_weather_request_url (city : string) (w : World) :
  http_log (snd (get_weather' (PStr city) w))
    = (http_log w ++ [weather_url city])%list
  /\ weather_url city
     = "https://wttr.in/" ++ str_replace " " "+" city ++ "?format=j1"
  /\ String.length (str_replace " " "+" city) = String.length city
  /\ (forall n,
        String.get n (str_replace " " "+" city)
        = option_map (fun c => if Ascii.eqb c " " then "+"%char else c)
            (String.get n city))
  /\ (forall n, String.get n (str_replace " " "+" city) <> Some " "%char).
Proof.
  split; [|split; [reflexivity|split; [apply str_replace_length|split]]].
  - rewrite get_weather_str.
    destruct (http_get _ _) as [d|r]; [reflexivity|].
    destruct (http_error_msg r); [reflexivity|].
    destruct (json_body r) as [data|msg]; [|reflexivity].
    destruct (extract_report city data) as [report|e]; [reflexivity|].
    destruct (is_parse_exn e); reflexivity.
  - intros n. apply str_replace_get.
  - intros n. rewrite str_replace_get.
    destruct (String.get n city) as [c|]; simpl; [|discriminate].
    destruct (Ascii.eqb c " ") eqn:E; [discriminate|].
    intros [= ->]. discriminate E.
Qed.

(** C10: whatever the argument and whatever the network does, the
    tool returns a string, except when a successful response holds a
    body on which a subscription raises [TypeError]; no
    [RequestException], [KeyError] or [IndexError] leaves it. *)
Theorem get_weather_returns_string (city : pyval) (w : World) :
  (exists s, fst (get_weather' city w) = Ok s)
  \/
  (exists c r data,
     city = PStr c
     /\ http_get (List.length (http_log w)) (weather_url c) = Responded r
     /\ http_error_msg r = None
     /\ json_body r = inl data
     /\ extract_report c data = Raise TypeError
     /\ fst (get_weather' city w) = Raise TypeError).
Proof.
  destruct city as [| b | n | bits | c | items | entries];
    try (left; eexists; reflexivity).
  rewrite get_weather_str.
  destruct (http_get _ _) as [d|r] eqn:Hget; [left; eexists; reflexivity|].
  destruct (http_error_msg r) eqn:Hmsg; [left; eexists; reflexivity|].
  destruct (json_body r) as [data|msg] eqn:Hbody;
    [|left; eexists; reflexivity].
  destruct (extract_report c data) as [report|e] eqn:E;
    [left; eexists; reflexivity|].
  destruct (extract_report_raises _ _ _ E) as [->|P].
  - right. exists c, r, data. simpl. repeat split; auto.
  - rewrite P. left; eexists; reflexivity.
Qed.

End ToolFacts.

(** ** Exit keywords *)

Lemma ascii_eqb_nat (a b : ascii) :
  Ascii.eqb a b = (nat_of_ascii a =? nat_of_ascii b)%nat.
Proof.
  destruct (Ascii.eqb_spec a b) as [->|N].
  - now rewrite Nat.eqb_refl.
  - symmetry. apply Nat.eqb_neq. intros E. apply N.
    rewrite <- (ascii_nat_embedding a), <- (ascii_nat_embedding b).
    now rewrite E.
Qed.

Lemma lower_ascii_same (c k : ascii) :
  is_lower k = true ->
  Ascii.eqb (lower_ascii c) k = same_ignoring_case c k.
Proof.
  unfold is_lower, same_ignoring_case, is_upper, lower_ascii.
  intros Hk.
  apply andb_true_iff in Hk as [Hk1 Hk2].
  apply Nat.leb_le in Hk1, Hk2.
  destruct (Nat.leb_spec 65 (nat_of_ascii c));
    destruct (Nat.leb_spec (nat_of_ascii c) 90); cbn [andb orb];
    rewrite !ascii_eqb_nat; try (rewrite nat_ascii_embedding by lia);
    repeat match goal with
      | |- context [(?a <=? ?b)%nat] => destruct (Nat.leb_spec a b)
      | |- context [(?a =? ?b)%nat] => destruct (Nat.eqb_spec a b)
      end; cbn [andb orb]; try reflexivity; try lia.
Qed.

Lemma lower_eqb_keyword (keyword s : string) :
  all_lower keyword = true ->
  String.eqb (lower s) keyword = eq_ignoring_case s keyword.
Proof.
  revert keyword. induction s as [|c s IH]; intros [|k keyword] Hk;
    try reflexivity.
  simpl in Hk. apply andb_true_iff in Hk as [Hk1 Hk2].
  simpl. rewrite (lower_ascii_same c k Hk1), (IH _ Hk2).
  destruct (same_ignoring_case c k); reflexivity.
Qed.

Lemma is_exit_command_keyword (line : string) :
  is_exit_command line = exit_keyword line.
Proof.
  unfold is_exit_command, exit_keyword. cbn [existsb].
  rewrite !lower_eqb_keyword by reflexivity.
  now rewrite orb_false_r.
Qed.

(** ** The loop body *)

Lemma with_output_nil (w : World) : with_output [] w = w.
Proof. destruct w. unfold with_output. simpl. now rewrite app_nil_r. Qed.

Lemma with_output_app (l1 l2 : list string) (w : World) :
  with_output l2 (with_output l1 w) = with_output (l1 ++ l2) w.
Proof. unfold with_output. simpl. now rewrite app_assoc. Qed.

Lemma last_final_app (l1 l2 : list Message) (acc : option Message) :
  last_final (l1 ++ l2) acc = last_final l2 (last_final l1 acc).
Proof.
  revert acc. induction l1 as [|m l1 IH]; intros acc; simpl;
    [reflexivity | apply IH].
Qed.

(** Nothing but a final answer comes out of [last_final]. *)
Lemma last_final_some (l : list Message) (acc m : option Message) :
  last_final l acc = m ->
  m = acc \/ exists x, m = Some x /\ In x l /\ is_final_answer x = true.
Proof.
  revert acc. induction l as [|y l IH]; intros acc H; simpl in H.
  - left. now symmetry.
  - destruct (IH _ H) as [E|(x & E & I & F)].
    + destruct (is_final_answer y) eqn:Fy; [|now left].
      right. exists y. repeat split; auto. now left.
    + right. exists x. repeat split; auto. now right.
Qed.

Lemma last_final_none (l : list Message) :
  last_final l None = None <->
  (forall m, In m l -> is_final_answer m = false).
Proof.
  split.
  - assert (G : forall acc, last_final l acc = None ->
                 forall m, In m l -> is_final_answer m = false).
    { induction l as [|y l IH]; intros acc H m I; [destruct I|].
      simpl in H. destruct I as [->|I]; [|exact (IH _ H m I)].
      destruct (is_final_answer m) eqn:F; [|reflexivity].
      destruct (last_final_some l (Some m) None H) as [E|(x & E & _)];
        discriminate E. }
    apply G.
  - induction l as [|y l IH]; intros H; [reflexivity|].
    simpl. rewrite (H y (or_introl eq_refl)).
    apply IH. intros m I. apply H. now right.
Qed.

Section LoopFacts.

Variable pretty_repr : Message -> string.

Variable stream :
  list Message ->
  (Chunk -> option Message -> M (option Message)) ->
  option Message -> M (option Message).

Lemma on_message_eq (m : Message) (acc : option Message) (w : World) :
  on_message pretty_repr m acc w
  = (Ok (if is_final_answer m then Some m else acc),
     with_output [pretty_repr m ++ nl] w).
Proof.
  unfold on_message, bind, print, write, ret.
  destruct m as [c|a|c n i]; try reflexivity.
  simpl. destruct (ai_tool_calls a); reflexivity.
Qed.

Lemma on_messages_eq (l : list Message) (acc : option Message) (w : World) :
  on_messages pretty_repr l acc w
  = (Ok (last_final l acc),
     with_output (List.map (fun m => pretty_repr m ++ nl) l) w).
Proof.
  revert acc w. induction l as [|m l IH]; intros acc w; simpl.
  - unfold ret. now rewrite with_output_nil.
  - unfold bind. rewrite on_message_eq, IH, with_output_app. reflexivity.
Qed.

Lemma on_items_eq (items : Chunk) (acc : option Message) (w : World) :
  exists texts,
    on_items pretty_repr items acc w
    = (Ok (last_final (chunk_messages items) acc), with_output texts w).
Proof.
  revert acc w. induction items as [|[key value] items IH]; intros acc w.
  - exists []. simpl. unfold ret. now rewrite with_output_nil.
  - cbn [on_items on_item chunk_messages]. unfold bind, print, write.
    destruct (assoc "messages" value) as [l|].
    + rewrite on_messages_eq.
      match goal with
      | |- context [on_items pretty_repr items ?a ?w'] =>
          destruct (IH a w') as [texts ->]
      end.
      eexists. rewrite !with_output_app, last_final_app. reflexivity.
    + unfold ret.
      match goal with
      | |- context [on_items pretty_repr items ?a ?w'] =>
          destruct (IH a w') as [texts ->]
      end.
      eexists. rewrite !with_output_app. reflexivity.
Qed.

(** The loop body only writes, and leaves in [final_response] the last
    final answer it has seen. *)
Lemma on_chunk_eq (chunk : Chunk) (acc : option Message) (w : World) :
  exists texts,
    on_chunk pretty_repr chunk acc w
    = (Ok (last_final (chunk_messages chunk) acc), with_output texts w).
Proof.
  unfold on_chunk, bind, print, write, ret.
  destruct (on_items_eq chunk acc w) as [texts ->].
  eexists. rewrite with_output_app. reflexivity.
Qed.

(** Over a graph that yields the chunks [chunks], the loop ends with
    the last final answer among their messages. *)
Lemma for_each_eq (chunks : list Chunk) (acc : option Message) (w : World) :
  exists texts,
    for_each chunks (on_chunk pretty_repr) acc w
    = (Ok (last_final (List.concat (List.map chunk_messages chunks)) acc),
       with_output texts w).
Proof.
  revert acc w. induction chunks as [|chunk chunks IH]; intros acc w.
  - exists []. simpl. unfold ret. now rewrite with_output_nil.
  - simpl. unfold bind.
    destruct (on_chunk_eq chunk acc w) as [t1 ->].
    destruct (IH (last_final (chunk_messages chunk) acc) (with_output t1 w))
      as [t2 ->].
    eexists. rewrite with_output_app, last_final_app. reflexivity.
Qed.

(** C9: the loop stops at an input line exactly when the whole line is
    "quit" or "exit" up to the case of its letters.  It then writes the
    goodbye text and returns with the history, the HTTP log and the
    model log as they were; every other line is appended to the history
    as the user's message and handed to the graph. *)
Theorem exit_keyword_ends_session
    (user_input : string) (rest : list string)
    (conversation_history : list Message) (w : World) :
  is_exit_command user_input = exit_keyword user_input
  /\ main_loop pretty_repr stream (user_input :: rest) conversation_history w
     = (if exit_keyword user_input
        then (Ok conversation_history,
              with_output [goodbye ++ nl] (with_output ["You: "] w))
        else
          match stream (conversation_history ++ [HumanMessage user_input])
                  (on_chunk pretty_repr) None
                  (with_output [(nl ++ "--- Agent Thinking ---") ++ nl]
                     (with_output ["You: "] w))
          with
          | (Ok (Some m), w1) =>
              main_loop pretty_repr stream rest
                ((conversation_history ++ [HumanMessage user_input]) ++ [m])
                (with_output [(nl ++ "AI: " ++ message_content m ++ nl) ++ nl] w1)
          | (Ok None, w1) =>
              main_loop pretty_repr stream rest
                (conversation_history ++ [HumanMessage user_input])
                (with_output [fallback ++ nl] w1)
          | (Raise e, w1) => (Raise e, w1)
          end)
  /\ http_log (with_output [goodbye ++ nl] (with_output ["You: "] w))
     = http_log w
  /\ llm_log (with_output [goodbye ++ nl] (with_output ["You: "] w))
     = llm_log w.
Proof.
  split; [apply is_exit_command_keyword|].
  split; [|split; reflexivity].
  cbn [main_loop]. rewrite is_exit_command_keyword.
  destruct (exit_keyword user_input); [reflexivity|].
  unfold bind at 1. unfold write at 1.
  unfold bind at 1. unfold turn, bind, print, write.
  destruct (stream _ _ _ _) as [[[m|]|e] w1]; reflexivity.
Qed.

End LoopFacts.

(** ** The graph *)

Lemma last_tool_calls_snoc (messages : list Message) (response : AIMsg) :
  last_tool_calls (messages ++ [AIMessage response])
  = Ok (ai_tool_calls response).
Proof.
  unfold last_tool_calls. rewrite List.map_app. simpl.
  now rewrite List.last_last.
Qed.

Lemma last_final_answers (calls : list ToolCall) (outs : list Message)
    (acc : option Message) :
  Forall2 answers calls outs -> last_final outs acc = acc.
Proof.
  intros H. revert acc. induction H as [|call out calls outs [c ->] _ IH];
    intros acc; simpl; [reflexivity | apply IH].
Qed.

Section GraphFacts.

Variable http_get : nat -> string -> HttpOutcome.
Variable json_dumps : pyval -> string.
Variable py_str : pyval -> string.
Variable model : nat -> list Message -> Res AIMsg.
Variable invocation_error : ToolCall -> string.
Variable handle_tool_errors : exn -> option string.
Variable recursion_limit : nat.
Variable pretty_repr : Message -> string.

Local Abbreviation graph :=
  (run_graph http_get json_dumps py_str model invocation_error
     handle_tool_errors).
Local Abbreviation tools :=
  (run_tools http_get json_dumps py_str invocation_error handle_tool_errors).
Local Abbreviation the_app :=
  (app (A := option Message) http_get json_dumps py_str model
     invocation_error handle_tool_errors recursion_limit).
Local Abbreviation body := (on_chunk pretty_repr).

(** The tool leaves the model log alone. *)
Lemma get_weather_llm_log (city : pyval) (w : World) :
  llm_log (snd (get_weather http_get json_dumps py_str city w)) = llm_log w.
Proof.
  destruct city as [| b | n | bits | c | items | entries]; try reflexivity.
  rewrite get_weather_str.
  destruct (http_get _ _) as [d|r]; [reflexivity|].
  destruct (http_error_msg r); [reflexivity|].
  destruct (json_body r) as [data|msg]; [|reflexivity].
  destruct (extract_report c data) as [report|e]; [reflexivity|].
  destruct (is_parse_exn e); reflexivity.
Qed.

Lemma run_tool_spec (call : ToolCall) (w : World) :
  llm_log (snd (run_tool http_get json_dumps py_str invocation_error
                  handle_tool_errors call w)) = llm_log w
  /\ (forall out,
        fst (run_tool http_get json_dumps py_str invocation_error
               handle_tool_errors call w) = Ok out ->
        answers call out).
Proof.
  unfold run_tool.
  assert (R : forall text w0,
             llm_log (snd (ret (ToolMessage text (tc_name call) (tc_id call)) w0))
               = llm_log w0
             /\ (forall out,
                   fst (ret (ToolMessage text (tc_name call) (tc_id call)) w0)
                     = Ok out -> answers call out)).
  { intros text w0. split; [reflexivity|].
    intros out [= <-]. now exists text. }
  destruct (String.eqb (tc_name call) "get_weather"); [|apply R].
  destruct (tc_args call) as [| | | | | |args]; try apply R.
  destruct (assoc "city" args) as [[| | | |c| |]|]; try apply R.
  unfold try_except, bind.
  pose proof (get_weather_llm_log (PStr c) w) as L.
  destruct (get_weather http_get json_dumps py_str (PStr c) w) as [[s|e] w1];
    simpl in L.
  - split; [exact L|]. intros out [= <-]. now exists s.
  - destruct (handle_tool_errors e) as [text|].
    + split; [exact L|]. intros out [= <-]. now exists text.
    + split; [exact L|]. intros out [=].
Qed.

Lemma run_tools_spec (calls : list ToolCall) (w : World) :
  llm_log (snd (tools calls w)) = llm_log w
  /\ (forall outs, fst (tools calls w) = Ok outs -> Forall2 answers calls outs).
Proof.
  revert w. induction calls as [|call calls IH]; intros w.
  - split; [reflexivity|]. intros outs [= <-]. constructor.
  - cbn [run_tools]. unfold bind.
    destruct (run_tool_spec call w) as [L1 A1].
    destruct (run_tool _ _ _ _ _ call w) as [[out|e] w1]; simpl in L1, A1.
    + destruct (IH w1) as [L2 A2].
      destruct (tools calls w1) as [[outs|e] w2]; simpl in L2, A2 |- *.
      * split; [congruence|]. intros outs' [= <-].
        constructor; [now apply A1 | now apply A2].
      * split; [congruence|]. intros outs' [=].
    + split; [exact L1|]. intros outs' [=].
Qed.

(** One execution of "agent": the model is called on the state; its
    answer ends the run when it asks for no tool -- with an exception
    when this was the last execution allowed -- and is added to the
    state before "action" runs otherwise. *)
Lemma agent_step (fuel : nat) (messages : list Message)
    (acc : option Message) (w : World) (r : Res (option Message))
    (w' : World) :
  graph (S fuel) agent messages body acc w = (r, w') ->
  (exists e,
     (model (List.length (llm_log w)) messages = Raise e
      \/ (fuel = 0 /\ e = GraphRecursionError))
     /\ r = Raise e
     /\ llm_log w' = (llm_log w ++ [messages])%list)
  \/ (exists response,
        model (List.length (llm_log w)) messages = Ok response
        /\ ai_tool_calls response = []
        /\ r = Ok (Some (AIMessage response))
        /\ llm_log w' = (llm_log w ++ [messages])%list)
  \/ (exists response texts,
        model (List.length (llm_log w)) messages = Ok response
        /\ ai_tool_calls response <> []
        /\ graph fuel action (messages ++ [AIMessage response]) body acc
             (with_output texts (asked messages w)) = (r, w')).
Proof.
  cbn [run_graph]. unfold call_model, model_invoke, should_continue.
  unfold bind at 1. unfold bind at 1. unfold print at 1. unfold write at 1.
  unfold bind at 1. cbn [llm_log with_output].
  destruct (model _ messages) as [response|e].
  - unfold ret at 1. unfold add_messages. cbn [assoc String.eqb Ascii.eqb Bool.eqb].
    unfold bind at 1. unfold bind at 1. unfold print at 1. unfold write at 1.
    unfold bind at 1. rewrite last_tool_calls_snoc. unfold lift at 1.
    destruct (ai_tool_calls response) as [|call calls] eqn:C.
    + unfold ret at 1. unfold bind at 1.
      match goal with
      | |- context [on_chunk pretty_repr ?c ?a ?w0] =>
          destruct (on_chunk_eq pretty_repr c a w0) as [texts ->]
      end.
      simpl (chunk_messages _). simpl (assoc _ agent_edges).
      cbn [last_final is_final_answer]. rewrite C.
      destruct fuel as [|fuel].
      * unfold raise. intros [= <- <-]. left. exists GraphRecursionError.
        split; [right; now split|]. split; reflexivity.
      * unfold ret. intros [= <- <-].
        right; left. exists response. repeat split; auto.
    + unfold ret at 1. unfold bind at 1.
      match goal with
      | |- context [on_chunk pretty_repr ?c ?a ?w0] =>
          destruct (on_chunk_eq pretty_repr c a w0) as [texts ->]
      end.
      simpl (chunk_messages _). simpl (assoc _ agent_edges).
      cbn [last_final is_final_answer]. rewrite C.
      intros H. right; right. exists response. eexists.
      split; [reflexivity|]. split; [congruence|].
      rewrite <- H. f_equal. unfold with_output, asked. simpl.
      rewrite <- !app_assoc. reflexivity.
  - intros [= <- <-]. left. exists e. split; [now left|]. split; reflexivity.
Qed.

(** One execution of "action": the tool calls of the last message are
    run, and their results are added to the state before "agent" runs
    again. *)
Lemma action_step (fuel : nat) (messages : list Message)
    (acc : option Message) (w : World) (r : Res (option Message))
    (w' : World) :
  graph (S fuel) action messages body acc w = (r, w') ->
  (exists e, r = Raise e /\ llm_log w' = llm_log w)
  \/ (exists calls outs w1 texts,
        last_tool_calls messages = Ok calls
        /\ tools calls w = (Ok outs, w1)
        /\ llm_log w1 = llm_log w
        /\ Forall2 answers calls outs
        /\ graph fuel agent (messages ++ outs) body acc
             (with_output texts w1) = (r, w')).
Proof.
  cbn [run_graph]. unfold tool_node.
  unfold bind at 1. unfold bind at 1. unfold lift at 1.
  destruct (last_tool_calls messages) as [calls|e].
  - unfold bind at 1.
    destruct (run_tools_spec calls w) as [L A].
    destruct (tools calls w) as [[outs|e] w1] eqn:T; simpl in L, A.
    + unfold ret at 1. unfold bind at 1.
      match goal with
      | |- context [on_chunk pretty_repr ?c ?a ?w0] =>
          destruct (on_chunk_eq pretty_repr c a w0) as [texts ->]
      end.
      simpl (chunk_messages _). rewrite app_nil_r.
      rewrite (last_final_answers calls outs acc (A _ eq_refl)).
      unfold add_messages. simpl (assoc _ _).
      intros H. right. exists calls, outs, w1, texts.
      repeat split; auto.
    + intros [= <- <-]. left. exists e. split; [reflexivity | exact L].
  - intros [= <- <-]. left. exists e. split; reflexivity.
Qed.

(** A run that ends normally ends on a final answer, and the loop body
    has kept it. *)
Lemma run_graph_final (fuel : nat) :
  forall (node : Node) (messages : list Message) (acc : option Message)
         (w : World) (r : option Message) (w' : World),
    graph fuel node messages body acc w = (Ok r, w') ->
    exists m, r = Some (AIMessage m) /\ ai_tool_calls m = [].
Proof.
  induction fuel as [|fuel IH]; intros node messages acc w r w' H.
  - discriminate H.
  - destruct node.
    + destruct (agent_step _ _ _ _ _ _ H)
        as [(e & _ & E & _)|[(m & _ & C & E & _)|(m & texts & _ & _ & G)]].
      * discriminate E.
      * injection E as ->. now exists m.
      * exact (IH _ _ _ _ _ _ G).
    + destruct (action_step _ _ _ _ _ _ H)
        as [(e & E & _)|(calls & outs & w1 & texts & _ & _ & _ & _ & G)].
      * discriminate E.
      * exact (IH _ _ _ _ _ _ G).
Qed.

Lemma extends_refl (l : list Message) : extends l l.
Proof. exists []. now rewrite app_nil_r. Qed.

Lemma extends_app (base more l : list Message) :
  extends (base ++ more) l -> extends base l.
Proof. intros [rest ->]. exists (more ++ rest)%list. now rewrite app_assoc. Qed.

(** What a run that ends normally adds to the model log. *)
Lemma run_graph_exchange (fuel : nat) :
  forall (node : Node) (messages : list Message) (acc : option Message)
         (w : World) (r : option Message) (w' : World),
    graph fuel node messages body acc w = (Ok r, w') ->
    exists log,
      llm_log w' = (llm_log w ++ log)%list
      /\ exchange_kept model (List.length (llm_log w)) log
      /\ match node with
         | agent =>
             exists log',
               log = messages :: log' /\ Forall (extends messages) log'
         | action =>
             forall calls,
               last_tool_calls messages = Ok calls ->
               exists outs log',
                 Forall2 answers calls outs
                 /\ log = (messages ++ outs)%list :: log'
                 /\ Forall (extends (messages ++ outs)) log'
         end.
Proof.
  induction fuel as [|fuel IH]; intros node messages acc w r w' H.
  - discriminate H.
  - destruct node.
    + destruct (agent_step _ _ _ _ _ _ H)
        as [(e & _ & E & _)|[(m & Em & C & _ & L)|(m & texts & Em & Cm & G)]].
      * discriminate E.
      * exists [messages]. split; [exact L|]. split.
        -- intros i input request Hnth Hmodel Hcalls.
           destruct i as [|i]; [|destruct i; discriminate Hnth].
           injection Hnth as <-. rewrite Nat.add_0_r in Hmodel.
           congruence.
        -- exists []. split; [reflexivity | constructor].
      * destruct (IH _ _ _ _ _ _ G) as (log2 & L2 & K2 & A2).
        destruct (A2 _ (last_tool_calls_snoc messages m))
          as (outs & log' & A & -> & F).
        cbn [llm_log with_output asked] in L2, K2.
        rewrite List.length_app in K2. cbn [List.length] in K2.
        rewrite <- !app_assoc in *. cbn [List.app] in *.
        assert (F2 : Forall (extends (messages ++ AIMessage m :: outs))
                       ((messages ++ AIMessage m :: outs)%list :: log')).
        { constructor; [apply extends_refl | exact F]. }
        eexists. split; [exact L2|]. split.
        -- intros i input request Hnth Hmodel Hcalls.
           destruct i as [|i].
           ++ injection Hnth as <-. rewrite Nat.add_0_r in Hmodel.
              assert (request = m) as -> by congruence.
              exists outs. split; [exact A|]. split; [reflexivity|].
              intros j later Hj Hl.
              destruct j as [|j]; [lia|]. cbn [nth_error] in Hl.
              exact (proj1 (Forall_forall _ _) F2 _ (nth_error_In _ _ Hl)).
           ++ cbn [nth_error] in Hnth.
              replace (List.length (llm_log w) + S i)
                with (List.length (llm_log w) + 1 + i) in Hmodel by lia.
              destruct (K2 _ _ _ Hnth Hmodel Hcalls) as (outs' & A' & N' & F').
              exists outs'. split; [exact A'|]. split; [exact N'|].
              intros j later Hj Hl.
              destruct j as [|j]; [lia|]. cbn [nth_error] in Hl.
              apply (F' j later); [lia | exact Hl].
        -- eexists. split; [reflexivity|].
           eapply Forall_impl; [|exact F2].
           intros l. apply (extends_app messages (AIMessage m :: outs)).
    + destruct (action_step _ _ _ _ _ _ H)
        as [(e & E & _)|(calls & outs & w1 & texts & Ec & _ & L1 & A & G)].
      * discriminate E.
      * destruct (IH _ _ _ _ _ _ G) as (log & L & K & log' & -> & F).
        cbn [llm_log with_output] in L, K. rewrite L1 in L, K.
        eexists. split; [exact L|]. split; [exact K|].
        intros calls' Ec'. assert (calls' = calls) as -> by congruence.
        exists outs, log'. repeat split; auto.
Qed.

(** ** Turns and sessions *)

Lemma main_loop_turns
    (stream : list Message ->
              (Chunk -> option Message -> M (option Message)) ->
              option Message -> M (option Message))
    (inputs rest : list string) :
  Forall (fun line => is_exit_command line = false) inputs ->
  forall (conversation_history : list Message) (w : World),
    main_loop pretty_repr stream (inputs ++ rest) conversation_history w
    = bind (turns pretty_repr stream inputs conversation_history)
        (main_loop pretty_repr stream rest) w.
Proof.
  induction 1 as [|line inputs Hline _ IH]; intros h w.
  - reflexivity.
  - cbn [List.app main_loop turns]. rewrite Hline.
    unfold bind, write.
    destruct (turn pretty_repr stream line h _) as [[h1|e] w1];
      [|reflexivity].
    rewrite IH. reflexivity.
Qed.

Lemma main_loop_quit
    (stream : list Message ->
              (Chunk -> option Message -> M (option Message)) ->
              option Message -> M (option Message))
    (conversation_history : list Message) (w : World) :
  main_loop pretty_repr stream ["quit"] conversation_history w
  = (Ok conversation_history,
     with_output [goodbye ++ nl] (with_output ["You: "] w)).
Proof. reflexivity. Qed.

(** A turn of the compiled workflow that comes to its end adds two
    entries to the history: the user's message and a final answer. *)
Lemma turn_app (user_input : string) (conversation_history : list Message)
    (w : World) (history' : list Message) (w' : World) :
  turn pretty_repr the_app user_input conversation_history w
    = (Ok history', w') ->
  exists final,
    history' = (conversation_history
                  ++ [HumanMessage user_input; AIMessage final])%list
    /\ ai_tool_calls final = [].
Proof.
  unfold turn, app. unfold bind at 1. unfold print at 1. unfold write at 1.
  unfold bind at 1.
  destruct (graph recursion_limit agent _ body None _) as [[fr|e] w1] eqn:G;
    [|discriminate].
  destruct (run_graph_final _ _ _ _ _ _ _ G) as (final & -> & C).
  unfold bind, print, write, ret. intros [= <- <-].
  exists final. split; [|exact C]. now rewrite <- app_assoc.
Qed.

Lemma turns_app (inputs : list string) :
  forall (conversation_history : list Message) (w : World)
         (history' : list Message) (w' : World),
    turns pretty_repr the_app inputs conversation_history w
      = (Ok history', w') ->
    exists added,
      history' = (conversation_history ++ added)%list
      /\ List.length added = 2 * List.length inputs.
Proof.
  induction inputs as [|line inputs IH]; intros h w h' w' H.
  - injection H as <- <-. exists []. now rewrite app_nil_r.
  - cbn [turns] in H. unfold bind at 1 in H. unfold write in H.
    unfold bind at 1 in H.
    destruct (turn pretty_repr the_app line h _) as [[h1|e] w1] eqn:T;
      [|discriminate].
    destruct (turn_app _ _ _ _ _ T) as (final & -> & _).
    destruct (IH _ _ _ _ H) as (added & -> & L).
    exists ([HumanMessage line; AIMessage final] ++ added)%list.
    split; [now rewrite <- app_assoc|].
    rewrite List.length_app, L. simpl. lia.
Qed.

(** C2: in a session of the compiled workflow, the history at the moment
    the user leaves after [N] turns holds [2 * N] entries, so at least
    [2 * N]; when the user takes further turns before leaving, the
    earlier history is the beginning of the later one, which is
    longer by two entries for each further turn. *)
Theorem history_grows_with_turns
    (inputs more : list string) (w : World)
    (history : list Message) (w' : World) :
  Forall (fun line => is_exit_command line = false) (inputs ++ more) ->
  main pretty_repr the_app (inputs ++ more ++ ["quit"]) w = (Ok history, w') ->
  exists earlier w1 added,
    main pretty_repr the_app (inputs ++ ["quit"]) w = (Ok earlier, w1)
    /\ 2 * List.length inputs <= List.length earlier
    /\ List.length earlier = 2 * List.length inputs
    /\ history = (earlier ++ added)%list
    /\ List.length added = 2 * List.length more
    /\ (more <> [] -> List.length earlier < List.length history).
Proof.
  intros Hall H.
  apply Forall_app in Hall as [Hin Hmore].
  unfold main in *. unfold bind at 1 in H. unfold bind at 1.
  unfold print, write in *.
  rewrite (main_loop_turns _ _ _ Hin) in H. unfold bind at 1 in H.
  rewrite (main_loop_turns _ _ _ Hin). unfold bind at 1.
  destruct (turns pretty_repr the_app inputs [] _) as [[h1|e] w1] eqn:T1;
    [|discriminate].
  rewrite (main_loop_turns _ _ _ Hmore) in H. unfold bind at 1 in H.
  destruct (turns pretty_repr the_app more h1 w1) as [[h2|e] w2] eqn:T2;
    [|discriminate].
  rewrite main_loop_quit in H. injection H as <- <-.
  rewrite main_loop_quit.
  destruct (turns_app _ _ _ _ _ T1) as (a1 & E1 & L1).
  destruct (turns_app _ _ _ _ _ T2) as (a2 & E2 & L2).
  simpl in E1. subst h1 h2.
  eexists. eexists. exists a2.
  split; [reflexivity|].
  repeat split; try lia.
  intros Hne. rewrite List.length_app.
  destruct more; [now destruct Hne | simpl in L2; lia].
Qed.

(** C3, as the code has it: in a turn of the compiled workflow that
    comes to its end, whenever the model answers with a request for
    tools, the request and then one result per tool call are added to
    the state of the graph: the next call of the model is on the
    messages it was just called on, followed by the request and the
    results, and every later call of the turn is on an extension of
    that list.  The history that the loop keeps for the following
    turns receives the user's message and the final answer only. *)
Theorem tool_exchange_stays_in_graph_state
    (user_input : string) (conversation_history : list Message)
    (w : World) (history' : list Message) (w' : World) :
  turn pretty_repr the_app user_input conversation_history w
    = (Ok history', w') ->
  exists log final,
    llm_log w' = (llm_log w ++ log)%list
    /\ nth_error log 0
       = Some (conversation_history ++ [HumanMessage user_input])%list
    /\ Forall (extends (conversation_history ++ [HumanMessage user_input]))
         log
    /\ exchange_kept model (List.length (llm_log w)) log
    /\ history' = (conversation_history
                     ++ [HumanMessage user_input; AIMessage final])%list
    /\ ai_tool_calls final = [].
Proof.
  intros H.
  destruct (turn_app _ _ _ _ _ H) as (final & Eh & Cf).
  unfold turn, app in H. unfold bind at 1 in H. unfold print at 1 in H.
  unfold write at 1 in H. unfold bind at 1 in H.
  destruct (graph recursion_limit agent _ body None _) as [[fr|e] w1] eqn:G;
    [|discriminate].
  assert (Lw : llm_log w' = llm_log w1).
  { destruct fr; unfold bind, print, write, ret in H;
      injection H as _ <-; reflexivity. }
  clear H.
  destruct (run_graph_exchange _ _ _ _ _ _ _ G) as (log & L & K & log' & -> & F).
  cbn [llm_log with_output] in L, K.
  eexists. exists final.
  split; [rewrite Lw; exact L|]. split; [reflexivity|].
  split; [constructor; [apply extends_refl | exact F]|].
  split; [exact K|]. split; [exact Eh | exact Cf].
Qed.

End GraphFacts.

(** * The scenarios of the interface description *)

(** London, sunny: the report holds the six values of the answer. *)
Lemma get_weather_report_fields_london :
  fst (get_weather Sample.sunny Sample.dumps Sample.py_str (PStr "London")
         Sample.w0)
  = Ok (Sample.dumps
          (PDict [ ("city", PStr "London");
                   ("temperature_celsius", PStr "18");
                   ("temperature_fahrenheit", PStr "64");
                   ("description", PStr "Sunny");
                   ("humidity_percent", PStr "40");
                   ("wind_speed_kmph", PStr "10") ])).
Proof.
  eapply (get_weather_report_fields Sample.sunny Sample.dumps Sample.py_str
            "London" Sample.w0);
    [ reflexivity | simpl; lia | reflexivity | reflexivity | reflexivity
    | reflexivity | reflexivity | reflexivity | reflexivity | reflexivity ].
Defined.

(** Two turns and then a third: four entries, then six. *)
Lemma history_grows_with_turns_paris :
  exists earlier w1 added,
    main Sample.pretty_repr Sample.sunny_app
      (["How is Paris?"; "And now?"] ++ ["quit"]) Sample.w0
      = (Ok earlier, w1)
    /\ 2 * List.length ["How is Paris?"; "And now?"] <= List.length earlier
    /\ List.length earlier = 2 * List.length ["How is Paris?"; "And now?"]
    /\ [ HumanMessage "How is Paris?"; AIMessage Sample.paris_answer;
         HumanMessage "And now?"; AIMessage Sample.paris_answer;
         HumanMessage "Thanks"; AIMessage Sample.paris_answer ]
       = (earlier ++ added)%list
    /\ List.length added = 2 * List.length ["Thanks"]
    /\ (["Thanks"] <> [] -> List.length earlier < 6).
Proof.
  eapply (history_grows_with_turns Sample.sunny Sample.dumps Sample.py_str
            Sample.tool_then_answer Sample.invocation_error
            Sample.handle_tool_errors 25 Sample.pretty_repr
            ["How is Paris?"; "And now?"] ["Thanks"] Sample.w0).
  - repeat constructor.
  - vm_compute. reflexivity.
Defined.

(** C3 fails as stated: the model asks for the tool in the first turn
    and the tool answers, yet neither the request nor the result is in
    the history that the loop keeps, and the model is not shown them in
    the second turn. *)
Lemma tool_exchange_absent_from_history :
  exists history w,
    main Sample.pretty_repr Sample.sunny_app
      ["How is Paris?"; "And tomorrow?"; "quit"] Sample.w0
      = (Ok history, w)
    /\ nth_error (llm_log w) 0 = Some [HumanMessage "How is Paris?"]
    /\ Sample.tool_then_answer 0 [HumanMessage "How is Paris?"]
       = Ok Sample.paris_request
    /\ ~ In (AIMessage Sample.paris_request) history
    /\ (forall content name id, ~ In (ToolMessage content name id) history)
    /\ nth_error (llm_log w) 2
       = Some [ HumanMessage "How is Paris?";
                AIMessage Sample.paris_answer;
                HumanMessage "And tomorrow?" ].
Proof.
  eexists. eexists.
  split; [vm_compute; reflexivity|].
  split; [reflexivity|]. split; [reflexivity|].
  split; [|split; [|reflexivity]].
  - intros [H|[H|[H|[H|[]]]]]; discriminate H.
  - intros content name id [H|[H|[H|[H|[]]]]]; discriminate H.
Qed.

(** The same turn, seen from inside the graph. *)
Lemma tool_exchange_stays_in_graph_state_paris :
  exists log final,
    llm_log
      (snd (turn Sample.pretty_repr Sample.sunny_app "How is Paris?" []
              Sample.w0))
      = (llm_log Sample.w0 ++ log)%list
    /\ nth_error log 0 = Some ([] ++ [HumanMessage "How is Paris?"])%list
    /\ Forall (extends ([] ++ [HumanMessage "How is Paris?"])) log
    /\ exchange_kept Sample.tool_then_answer
         (List.length (llm_log Sample.w0)) log
    /\ [HumanMessage "How is Paris?"; AIMessage Sample.paris_answer]
       = ([] ++ [HumanMessage "How is Paris?"; AIMessage final])%list
    /\ ai_tool_calls final = [].
Proof.
  eapply (tool_exchange_stays_in_graph_state Sample.sunny Sample.dumps
            Sample.py_str Sample.tool_then_answer Sample.invocation_error
            Sample.handle_tool_errors 25 Sample.pretty_repr
            "How is Paris?" [] Sample.w0).
  vm_compute. reflexivity.
Defined.

Lemma get_weather_rejects_non_string_five :
  get_weather Sample.sunny Sample.dumps Sample.py_str (PInt 5) Sample.w0
  = (Ok "Error: City must be a string.",
     {| stdout :=
          (stdout Sample.w0
             ++ [(("--- Calling Weather Tool for "
                     ++ Sample.py_str (PInt 5) ++ " ---") ++ nl)%string])%list;
        http_log := http_log Sample.w0;
        llm_log := llm_log Sample.w0 |}).
Proof.
  apply (get_weather_rejects_non_string Sample.sunny Sample.dumps
           Sample.py_str (PInt 5) Sample.w0).
  intros s. discriminate.
Defined.

(** C6 fails as stated: a body whose [current_condition] is [null]
    lacks the nested fields, and the tool raises [TypeError] where the
    claim has it return the parse-error text. *)
Lemma null_condition_raises_type_error :
  Sample.null_condition 0 (weather_url "London")
    = Responded {| status_code := 200; reason := "OK";
                   resp_url := weather_url "London";
                   json_body := inl (PDict [("current_condition", PNone)]) |}
  /\ get_weather Sample.null_condition Sample.dumps Sample.py_str
       (PStr "London") Sample.w0
     = (Raise TypeError, after_request "London" Sample.w0)
  /\ (forall s,
        fst (get_weather Sample.null_condition Sample.dumps Sample.py_str
               (PStr "London") Sample.w0) <> Ok s).
Proof.
  split; [reflexivity|]. split; [reflexivity|].
  intros s. discriminate.
Qed.

Lemma get_weather_parse_error_no_condition :
  fst (get_weather Sample.no_condition Sample.dumps Sample.py_str
         (PStr "London") Sample.w0)
  = Ok ("Error parsing weather data. The city might be invalid. "
          ++ "Details: 'current_condition'")
  /\ fst (get_weather Sample.no_condition Sample.dumps Sample.py_str
            (PStr "London") Sample.w0)
     = Ok (parse_error_prefix ++ str_exn (KeyError (KStr "current_condition")))
  /\ mentions
       (parse_error_prefix ++ str_exn (KeyError (KStr "current_condition")))
       "The city might be invalid".
Proof.
  destruct (get_weather_parse_error Sample.no_condition Sample.dumps
              Sample.py_str "London" Sample.w0
              {| status_code := 200; reason := "OK";
                 resp_url := weather_url "London";
                 json_body := inl (PDict [("request", PList [])]) |}
              (PDict [("request", PList [])])
              eq_refl (or_introl eq_refl) eq_refl) as [A B].
  split; [exact (A _ eq_refl eq_refl)|].
  exact (B (KeyError (KStr "current_condition")) eq_refl eq_refl).
Defined.

(** C7 fails as stated: a response with status 300, which is not a 2xx
    status, and a full report in its body makes the tool return the
    report, not the fetch-error text. *)
Lemma multiple_choices_returns_report :
  Sample.multiple_choices 0 (weather_url "London")
    = Responded {| status_code := 300; reason := "Multiple Choices";
                   resp_url := weather_url "London";
                   json_body := inl Sample.sunny_body |}
  /\ fst (get_weather Sample.multiple_choices Sample.dumps Sample.py_str
            (PStr "London") Sample.w0)
     = Ok (Sample.dumps
             (weather_report "London" (PStr "18") (PStr "64") (PStr "Sunny")
                (PStr "40") (PStr "10")))
  /\ (forall detail,
        fst (get_weather Sample.multiple_choices Sample.dumps Sample.py_str
               (PStr "London") Sample.w0)
        <> Ok ("Error fetching weather data: " ++ detail)).
Proof.
  split; [reflexivity|]. split; [reflexivity|].
  intros detail. vm_compute. discriminate.
Qed.

Lemma get_weather_network_error_samples :
  get_weather Sample.refused Sample.dumps Sample.py_str (PStr "London")
    Sample.w0
  = (Ok ("Error fetching weather data: " ++ "Connection refused"),
     after_request "London" Sample.w0)
  /\
  (exists detail,
     http_error_msg
       {| status_code := 404; reason := "Not Found";
          resp_url := weather_url "London";
          json_body := inr "Expecting value: line 1 column 1 (char 0)" |}
       = Some detail
     /\ get_weather Sample.not_found Sample.dumps Sample.py_str
          (PStr "London") Sample.w0
        = (Ok ("Error fetching weather data: " ++ detail),
           after_request "London" Sample.w0)).
Proof.
  split.
  - exact (proj1 (get_weather_network_error Sample.refused Sample.dumps
                    Sample.py_str "London" Sample.w0)
             "Connection refused" eq_refl).
  - apply (proj2 (get_weather_network_error Sample.not_found Sample.dumps
                    Sample.py_str "London" Sample.w0)).
    + reflexivity.
    + simpl. lia.
Defined.

(** * Further properties of the program *)

(** ** Reading the report *)

Lemma getitem_key_inv (v : pyval) (k : string) (x : pyval) :
  getitem v (KStr k) = Ok x ->
  exists d, v = PDict d /\ assoc k d = Some x.
Proof.
  destruct v as [| | | | |l|d]; try discriminate.
  simpl. destruct (assoc k d) as [y|] eqn:E; [|discriminate].
  intros [= <-]. now exists d.
Qed.

Lemma getitem_first_dict_inv (v x : pyval) (k : string) (y : pyval) :
  getitem v (KInt 0) = Ok x ->
  getitem x (KStr k) = Ok y ->
  exists d l, v = PList (PDict d :: l) /\ x = PDict d /\ assoc k d = Some y.
Proof.
  intros H0 Hk.
  destruct (getitem_key_inv _ _ _ Hk) as (d & -> & A).
  destruct v as [| | | |s|l|d']; try discriminate.
  - exfalso. revert H0. unfold getitem.
    destruct (seq_index _ _); [|discriminate].
    unfold str_item. destruct (String.get _ _); discriminate.
  - destruct l as [|x l]; [discriminate|].
    rewrite getitem_first in H0. injection H0 as ->.
    now exists d, l.
Qed.

(** X1: The fields are read, and the six-entry report is built, exactly
    when the decoded body is an object whose [current_condition] is a
    list that starts with an object holding [weatherDesc] -- a list
    that starts with an object holding [value] -- and the four other
    keys; the report then holds the city and those five values. *)
Theorem extract_report_iff_shape (city : string) (data report : pyval) :
  extract_report city data = Ok report <->
  exists desc temp_c temp_f humidity wind,
    report_shape data desc temp_c temp_f humidity wind
    /\ report = PDict [ ("city", PStr city);
                        ("temperature_celsius", temp_c);
                        ("temperature_fahrenheit", temp_f);
                        ("description", desc);
                        ("humidity_percent", humidity);
                        ("wind_speed_kmph", wind) ].
Proof.
  split.
  - unfold extract_report. intros H.
    destruct (getitem data (KStr "current_condition")) as [ccl|] eqn:E1;
      [|discriminate].
    destruct (getitem ccl (KInt 0)) as [cc|] eqn:E2; [|discriminate].
    destruct (getitem cc (KStr "weatherDesc")) as [descs|] eqn:E3;
      [|discriminate].
    destruct (getitem descs (KInt 0)) as [d0|] eqn:E4; [|discriminate].
    destruct (getitem d0 (KStr "value")) as [desc|] eqn:E5; [|discriminate].
    destruct (getitem cc (KStr "temp_C")) as [tc|] eqn:E6; [|discriminate].
    destruct (getitem cc (KStr "temp_F")) as [tf|] eqn:E7; [|discriminate].
    destruct (getitem cc (KStr "humidity")) as [hum|] eqn:E8; [|discriminate].
    destruct (getitem cc (KStr "windspeedKmph")) as [wind|] eqn:E9;
      [|discriminate].
    injection H as <-.
    destruct (getitem_key_inv _ _ _ E1) as (body & -> & A1).
    destruct (getitem_first_dict_inv _ _ _ _ E2 E3)
      as (condition & more & -> & -> & A3).
    destruct (getitem_first_dict_inv _ _ _ _ E4 E5)
      as (first_desc & more_descs & -> & -> & A5).
    destruct (getitem_key_inv _ _ _ E6) as (c6 & [= <-] & A6).
    destruct (getitem_key_inv _ _ _ E7) as (c7 & [= <-] & A7).
    destruct (getitem_key_inv _ _ _ E8) as (c8 & [= <-] & A8).
    destruct (getitem_key_inv _ _ _ E9) as (c9 & [= <-] & A9).
    exists desc, tc, tf, hum, wind. split; [|reflexivity].
    exists body, condition, more, first_desc, more_descs.
    repeat split; assumption.
  - intros (desc & tc & tf & hum & wind & Hshape & ->).
    destruct Hshape
      as (body & condition & more & first_desc & more_descs & -> & A1 & A3
          & A5 & A6 & A7 & A8 & A9).
    unfold extract_report.
    rewrite (getitem_key _ _ _ A1), getitem_first.
    rewrite (getitem_key _ _ _ A3), getitem_first.
    rewrite (getitem_key _ _ _ A5), (getitem_key _ _ _ A6),
      (getitem_key _ _ _ A7), (getitem_key _ _ _ A8),
      (getitem_key _ _ _ A9).
    reflexivity.
Qed.

(** ** The request URL *)

Lemma str_replace_absent (old new : ascii) (s : string) :
  contains_char old s = false -> str_replace old new s = s.
Proof.
  induction s as [|c s IH]; simpl; [reflexivity|].
  intros H. apply orb_false_iff in H as [Hc Hs].
  now rewrite Hc, (IH Hs).
Qed.

Lemma str_replace_removes (old new : ascii) (s : string) :
  Ascii.eqb new old = false ->
  contains_char old (str_replace old new s) = false.
Proof.
  intros Hne. induction s as [|c s IH]; simpl; [reflexivity|].
  rewrite IH, orb_false_r.
  destruct (Ascii.eqb c old) eqn:E; [exact Hne | exact E].
Qed.

(** X2: A city name without a space goes into the URL as it is: no other
    character is replaced or escaped. *)
Theorem weather_url_verbatim (city : string) :
  contains_char " " city = false ->
  weather_url city = "https://wttr.in/" ++ city ++ "?format=j1".
Proof.
  intros H. unfold weather_url. now rewrite (str_replace_absent _ _ _ H).
Qed.

(** X3: A name and the same name with its spaces already written as [+]
    are requested at the same URL. *)
Theorem weather_url_plus_for_space (city : string) :
  weather_url (str_replace " " "+" city) = weather_url city.
Proof.
  unfold weather_url.
  rewrite (str_replace_absent " " "+" (str_replace " " "+" city)).
  - reflexivity.
  - now apply str_replace_removes.
Qed.

(** ** Exit keywords *)

Lemma lower_length (s : string) : String.length (lower s) = String.length s.
Proof. induction s as [|c s IH]; simpl; congruence. Qed.

Lemma lower_ascii_letter (c : ascii) :
  is_lower (lower_ascii c) = true -> is_upper c || is_lower c = true.
Proof.
  unfold is_lower, is_upper, lower_ascii.
  destruct (Nat.leb_spec 65 (nat_of_ascii c));
    destruct (Nat.leb_spec (nat_of_ascii c) 90); cbn [andb orb];
    intros Hl; try reflexivity; exact Hl.
Qed.

Lemma lower_all_letters (s : string) :
  all_lower (lower s) = true -> all_letters s = true.
Proof.
  induction s as [|c s IH]; simpl; [reflexivity|].
  intros H. apply andb_true_iff in H as [Hc Hs].
  now rewrite (lower_ascii_letter c Hc), (IH Hs).
Qed.

(** X15: Only a line of exactly four letters ends the session: the input is
    not stripped, so a keyword with a space or any other character
    before or after it is an ordinary message. *)
Theorem exit_command_is_bare_keyword (user_input : string) :
  is_exit_command user_input = true ->
  String.length user_input = 4
  /\ all_letters user_input = true
  /\ contains_char " " user_input = false.
Proof.
  unfold is_exit_command. cbn [existsb]. rewrite orb_false_r.
  intros H.
  assert (K : exists keyword, lower user_input = keyword
                /\ String.length keyword = 4
                /\ all_lower keyword = true).
  { apply orb_true_iff in H as [H|H]; apply String.eqb_eq in H;
      eexists; (split; [exact H | split; reflexivity]). }
  destruct K as (keyword & E & L & A).
  assert (Letters : all_letters user_input = true).
  { apply lower_all_letters. now rewrite E. }
  split; [now rewrite <- lower_length, E|]. split; [exact Letters|].
  clear - Letters. induction user_input as [|c s IH]; [reflexivity|].
  simpl in *. apply andb_true_iff in Letters as [Hc Hs].
  rewrite (IH Hs), orb_false_r.
  destruct (Ascii.eqb_spec c " ") as [->|N]; [discriminate Hc | reflexivity].
Qed.

(** ** The tool and the tool node *)

Section ToolNodeFacts.

Variable http_get : nat -> string -> HttpOutcome.
Variable json_dumps : pyval -> string.
Variable py_str : pyval -> string.
Variable invocation_error : ToolCall -> string.
Variable handle_tool_errors : exn -> option string.

Local Abbreviation weather := (get_weather http_get json_dumps py_str).
Local Abbreviation tool :=
  (run_tool http_get json_dumps py_str invocation_error handle_tool_errors).
Local Abbreviation tools :=
  (run_tools http_get json_dumps py_str invocation_error handle_tool_errors).

Lemma get_weather_world (city : string) (w : World) :
  snd (weather (PStr city) w) = after_request city w.
Proof.
  rewrite get_weather_str.
  destruct (http_get _ _) as [d|r]; [reflexivity|].
  destruct (http_error_msg r); [reflexivity|].
  destruct (json_body r) as [data|msg]; [|reflexivity].
  destruct (extract_report city data) as [report|e]; [reflexivity|].
  destruct (is_parse_exn e); reflexivity.
Qed.

Lemma get_weather_raises (city : string) (w : World) (e : exn) :
  fst (weather (PStr city) w) = Raise e -> e = TypeError.
Proof.
  rewrite get_weather_str.
  destruct (http_get _ _) as [d|r]; [discriminate|].
  destruct (http_error_msg r); [discriminate|].
  destruct (json_body r) as [data|msg]; [|discriminate].
  destruct (extract_report city data) as [report|e']; [discriminate|].
  destruct (is_parse_exn e'); [discriminate|].
  now intros [= <-].
Qed.

(** X4: An empty [current_condition] list is reported as a parse error
    whose details are the text of the [IndexError]. *)
Theorem get_weather_empty_conditions
    (city : string) (w : World) (r : Response)
    (body : list (string * pyval)) :
  http_get (List.length (http_log w)) (weather_url city) = Responded r ->
  (status_code r < 400 \/ 600 <= status_code r)%Z ->
  json_body r = inl (PDict body) ->
  assoc "current_condition" body = Some (PList []) ->
  weather (PStr city) w
  = (Ok ("Error parsing weather data. The city might be invalid. "
           ++ "Details: list index out of range"),
     after_request city w).
Proof.
  intros Hget Hst Hbody Hcc.
  rewrite get_weather_str, Hget, (http_error_msg_none _ Hst), Hbody.
  unfold extract_report. rewrite (getitem_key _ _ _ Hcc).
  reflexivity.
Qed.

Lemma run_tool_world (call : ToolCall) (w : World) :
  (exists text, tool call w
                = (Ok (ToolMessage text (tc_name call) (tc_id call)), w))
  \/ (exists city,
        snd (tool call w) = after_request city w
        /\ ((exists text,
               fst (tool call w)
               = Ok (ToolMessage text (tc_name call) (tc_id call)))
            \/ (fst (tool call w) = Raise TypeError
                /\ handle_tool_errors TypeError = None))).
Proof.
  unfold run_tool.
  destruct (String.eqb (tc_name call) "get_weather");
    [|left; eexists; reflexivity].
  destruct (tc_args call) as [| | | | | |args];
    try (left; eexists; reflexivity).
  destruct (assoc "city" args) as [[| | | |c| |]|];
    try (left; eexists; reflexivity).
  right. exists c. unfold try_except, bind.
  pose proof (get_weather_world c w) as Hw.
  pose proof (get_weather_raises c w) as Hr.
  destruct (weather (PStr c) w) as [[s|e] w1]; simpl in Hw, Hr; subst w1.
  - split; [reflexivity|]. left. eexists. reflexivity.
  - rewrite (Hr e eq_refl).
    destruct (handle_tool_errors TypeError) as [text|] eqn:Hh.
    + split; [reflexivity|]. left. eexists. reflexivity.
    + split; [reflexivity|]. right. split; reflexivity.
Qed.

Lemma run_tools_effects (calls : list ToolCall) (w : World) :
  llm_log (snd (tools calls w)) = llm_log w
  /\ (exists urls,
        http_log (snd (tools calls w)) = (http_log w ++ urls)%list
        /\ List.length urls <= List.length calls
        /\ Forall weather_request urls)
  /\ (forall outs,
        fst (tools calls w) = Ok outs -> Forall2 answers calls outs)
  /\ (forall e,
        fst (tools calls w) = Raise e ->
        e = TypeError /\ handle_tool_errors TypeError = None).
Proof.
  revert w. induction calls as [|call calls IH]; intros w.
  - cbn [run_tools]. unfold ret. cbn [fst snd].
    split; [reflexivity|]. split.
    { exists []. rewrite app_nil_r. repeat split; auto. }
    split; [intros outs [= <-]; constructor | discriminate].
  - cbn [run_tools]. unfold bind, ret.
    destruct (run_tool_world call w) as [(text & E)|(city & Hw & Hres)].
    + rewrite E.
      destruct (IH w) as (L & (urls & U & Len & F) & A & R).
      destruct (tools calls w) as [[outs|e] w2]; cbn [fst snd] in *.
      * split; [exact L|]. split.
        { exists urls. repeat split; auto. simpl. lia. }
        split; [|discriminate].
        intros outs' [= <-]. constructor; [now exists text | now apply A].
      * split; [exact L|]. split.
        { exists urls. repeat split; auto. simpl. lia. }
        split; [discriminate|]. intros e' [= <-]. now apply R.
    + destruct (tool call w) as [[out|e] w1]; cbn [fst snd] in *; subst w1.
      * destruct Hres as [(text & [= ->])|[H _]]; [|discriminate H].
        destruct (IH (after_request city w))
          as (L & (urls & U & Len & F) & A & R).
        destruct (tools calls (after_request city w)) as [[outs|e] w2];
          cbn [fst snd] in *.
        -- split; [exact L|]. split.
           { exists (weather_url city :: urls). rewrite U. cbn.
             rewrite <- app_assoc. repeat split; auto; [simpl; lia|].
             constructor; [now exists city | exact F]. }
           split; [|discriminate].
           intros outs' [= <-]. constructor; [now exists text | now apply A].
        -- split; [exact L|]. split.
           { exists (weather_url city :: urls). rewrite U. cbn.
             rewrite <- app_assoc. repeat split; auto; [simpl; lia|].
             constructor; [now exists city | exact F]. }
           split; [discriminate|]. intros e' [= <-]. now apply R.
      * destruct Hres as [(text & H)|[[= ->] Hh]]; [discriminate H|].
        split; [reflexivity|]. split.
        { exists [weather_url city]. repeat split; auto; [simpl; lia|].
          constructor; [now exists city | constructor]. }
        split; [discriminate|]. intros e' [= <-]. now split.
Qed.

End ToolNodeFacts.

(** ** Runs of the graph *)

Section RunFacts.

Variable http_get : nat -> string -> HttpOutcome.
Variable json_dumps : pyval -> string.
Variable py_str : pyval -> string.
Variable model : nat -> list Message -> Res AIMsg.
Variable invocation_error : ToolCall -> string.
Variable handle_tool_errors : exn -> option string.
Variable recursion_limit : nat.
Variable pretty_repr : Message -> string.

Local Abbreviation graph :=
  (run_graph http_get json_dumps py_str model invocation_error
     handle_tool_errors).
Local Abbreviation tools :=
  (run_tools http_get json_dumps py_str invocation_error handle_tool_errors).
Local Abbreviation the_app :=
  (app (A := option Message) http_get json_dumps py_str model
     invocation_error handle_tool_errors recursion_limit).
Local Abbreviation body := (on_chunk pretty_repr).

Lemma on_chunk_single (key : string) (l : list Message)
    (acc : option Message) (w : World) :
  body [(key, [("messages", l)])] acc w
  = (Ok (last_final l acc),
     with_output
       ((("Output from node '" ++ key ++ "':") ++ nl)
          :: List.map (fun m => pretty_repr m ++ nl) l ++ ["---" ++ nl])
       w).
Proof.
  unfold on_chunk. cbn [on_items on_item]. unfold bind, print, write, ret.
  change (assoc "messages" [("messages", l)]) with (Some l).
  cbv beta iota. rewrite on_messages_eq.
  rewrite !with_output_app. reflexivity.
Qed.

(** One execution of "agent", with the world it leaves. *)
Lemma agent_step_world (fuel : nat) (messages : list Message)
    (acc : option Message) (w : World) :
  exists texts,
    graph (S fuel) agent messages body acc w
    = match model (List.length (llm_log w)) messages with
      | Raise e => (Raise e, with_output texts (asked messages w))
      | Ok response =>
          match ai_tool_calls response with
          | [] =>
              (match fuel with
               | O => Raise GraphRecursionError
               | S _ => Ok (Some (AIMessage response))
               end,
               with_output (texts ++ ["--- Checking for Tool Calls ---" ++ nl;
                                      "Output from node 'agent':" ++ nl;
                                      pretty_repr (AIMessage response) ++ nl;
                                      "---" ++ nl])
                 (asked messages w))
          | _ :: _ =>
              graph fuel action (messages ++ [AIMessage response]) body acc
                (with_output (texts ++ ["--- Checking for Tool Calls ---" ++ nl;
                                        "Output from node 'agent':" ++ nl;
                                        pretty_repr (AIMessage response) ++ nl;
                                        "---" ++ nl])
                   (asked messages w))
          end
      end.
Proof.
  exists ["--- Calling LLM ---" ++ nl].
  cbn [run_graph]. unfold call_model, model_invoke, should_continue.
  unfold bind at 1. unfold bind at 1. unfold print at 1. unfold write at 1.
  unfold bind at 1. cbn [llm_log with_output].
  destruct (model _ messages) as [response|e]; [|reflexivity].
  unfold ret at 1. unfold add_messages. simpl (assoc "messages" _).
  unfold bind at 1. unfold bind at 1. unfold print at 1. unfold write at 1.
  unfold bind at 1. rewrite last_tool_calls_snoc. unfold lift at 1.
  destruct (ai_tool_calls response) as [|call calls] eqn:C.
  - unfold ret at 1. unfold bind at 1. cbn [node_name].
    rewrite on_chunk_single. cbn [last_final is_final_answer]. rewrite C.
    simpl (assoc _ agent_edges).
    destruct fuel as [|fuel]; unfold ret, raise;
      (f_equal; unfold with_output, asked; simpl;
       rewrite <- !app_assoc; reflexivity).
  - unfold ret at 1. unfold bind at 1. cbn [node_name].
    rewrite on_chunk_single. cbn [last_final is_final_answer]. rewrite C.
    simpl (assoc _ agent_edges).
    f_equal. unfold with_output, asked. simpl.
    rewrite <- !app_assoc. reflexivity.
Qed.

(** One execution of "action", with the world it leaves. *)
Lemma action_step_world (fuel : nat) (messages : list Message)
    (acc : option Message) (w : World) :
  graph (S fuel) action messages body acc w
  = match last_tool_calls messages with
    | Raise e => (Raise e, w)
    | Ok calls =>
        match tools calls w with
        | (Raise e, w1) => (Raise e, w1)
        | (Ok outs, w1) =>
            graph fuel agent (messages ++ outs) body acc
              (with_output
                 (("Output from node 'action':" ++ nl)
                    :: List.map (fun m => pretty_repr m ++ nl) outs
                    ++ ["---" ++ nl])
                 w1)
        end
    end.
Proof.
  cbn [run_graph]. unfold tool_node.
  unfold bind at 1. unfold bind at 1. unfold lift at 1.
  destruct (last_tool_calls messages) as [calls|e]; [|reflexivity].
  unfold bind at 1.
  pose proof (run_tools_effects http_get json_dumps py_str invocation_error
                handle_tool_errors calls w) as (_ & _ & A & _).
  destruct (tools calls w) as [[outs|e] w1]; [|reflexivity].
  specialize (A outs eq_refl).
  unfold ret at 1. unfold bind at 1. cbn [node_name].
  rewrite on_chunk_single.
  unfold add_messages. simpl (assoc "messages" _).
  rewrite (last_final_answers calls outs acc A).
  reflexivity.
Qed.

(** What any run, ended or cut or failed, has done to the world. *)
Lemma run_graph_effects (fuel : nat) :
  forall (node : Node) (messages : list Message) (acc : option Message)
         (w : World),
  exists urls log,
    http_log (snd (graph fuel node messages body acc w))
      = (http_log w ++ urls)%list
    /\ Forall weather_request urls
    /\ llm_log (snd (graph fuel node messages body acc w))
       = (llm_log w ++ log)%list
    /\ 2 * List.length log
       <= fuel + match node with agent => 1 | action => 0 end.
Proof.
  induction fuel as [|fuel IH]; intros node messages acc w.
  - exists [], []. rewrite !app_nil_r. simpl. repeat split; auto.
    destruct node; lia.
  - destruct node.
    + destruct (agent_step_world fuel messages acc w) as [texts ->].
      destruct (model _ messages) as [response|e].
      * destruct (ai_tool_calls response) as [|call calls].
        -- exists [], [messages]. rewrite app_nil_r. simpl.
           repeat split; auto. lia.
        -- match goal with
           | |- context [graph fuel action ?m body acc ?w0] =>
               destruct (IH action m acc w0) as (urls & log & U & F & L & B)
           end.
           exists urls, (messages :: log).
           split; [rewrite U; reflexivity|]. split; [exact F|].
           split; [rewrite L; simpl; now rewrite <- app_assoc|].
           simpl. lia.
      * exists [], [messages]. rewrite app_nil_r. simpl.
        repeat split; auto. lia.
    + rewrite action_step_world.
      destruct (last_tool_calls messages) as [calls|e].
      * pose proof (run_tools_effects http_get json_dumps py_str
                      invocation_error handle_tool_errors calls w)
          as (L1 & (urls1 & U1 & _ & F1) & _ & _).
        destruct (tools calls w) as [[outs|e] w1]; cbn [fst snd] in *.
        -- match goal with
           | |- context [graph fuel agent ?m body acc ?w0] =>
               destruct (IH agent m acc w0) as (urls & log & U & F & L & B)
           end.
           cbn [http_log llm_log with_output] in U, L.
           exists (urls1 ++ urls)%list, log.
           split; [rewrite U, U1; now rewrite <- app_assoc|].
           split; [now apply Forall_app|].
           split; [rewrite L, L1; reflexivity | lia].
        -- exists urls1, []. rewrite app_nil_r.
           repeat split; auto. simpl. lia.
      * exists [], []. rewrite !app_nil_r. simpl. repeat split; auto. lia.
Qed.

Lemma turn_unfold
    (stream : list Message ->
              (Chunk -> option Message -> M (option Message)) ->
              option Message -> M (option Message))
    (user_input : string) (conversation_history : list Message)
    (w : World) :
  turn pretty_repr stream user_input conversation_history w
  = match stream (conversation_history ++ [HumanMessage user_input])%list
            body None
            (with_output [(nl ++ "--- Agent Thinking ---") ++ nl] w)
    with
    | (Ok (Some m), w1) =>
        (Ok ((conversation_history ++ [HumanMessage user_input]) ++ [m])%list,
         with_output [(nl ++ "AI: " ++ message_content m ++ nl) ++ nl] w1)
    | (Ok None, w1) =>
        (Ok (conversation_history ++ [HumanMessage user_input])%list,
         with_output [fallback ++ nl] w1)
    | (Raise e, w1) => (Raise e, w1)
    end.
Proof.
  unfold turn, bind, print, write.
  destruct (stream _ _ _ _) as [[[m|]|e] w1]; reflexivity.
Qed.

(** X6: In one turn of the compiled workflow, however it ends, the
    model is called at most half as many times, rounded up, as the
    runtime allows node executions. *)
Theorem turn_model_calls_bounded
    (user_input : string) (conversation_history : list Message)
    (w : World) :
  exists log,
    llm_log (snd (turn pretty_repr the_app user_input
                    conversation_history w))
      = (llm_log w ++ log)%list
    /\ 2 * List.length log <= recursion_limit + 1.
Proof.
  rewrite turn_unfold. unfold app.
  match goal with
  | |- context [graph recursion_limit agent ?m body None ?w0] =>
      destruct (run_graph_effects recursion_limit agent m None w0)
        as (urls & log & _ & _ & L & B);
      destruct (graph recursion_limit agent m body None w0)
        as [[[x|]|e] w1]
  end; cbn [fst snd llm_log with_output] in *;
    exists log; split; auto.
Qed.

(** C4: with the compiled workflow, a turn whose run of the graph
    leaves no final answer does not reach the fallback: the run has
    raised, the exception leaves the loop with the world as the run
    left it, and no further input is read. *)
Theorem turn_without_final_answer_ends_session
    (user_input : string) (rest : list string)
    (conversation_history : list Message) (w : World) :
  is_exit_command user_input = false ->
  (forall m,
     fst (the_app (conversation_history ++ [HumanMessage user_input])%list
            body None
            (with_output [(nl ++ "--- Agent Thinking ---") ++ nl]
               (with_output ["You: "] w)))
     <> Ok (Some m)) ->
  exists e,
    main_loop pretty_repr the_app (user_input :: rest) conversation_history w
    = (Raise e,
       snd (the_app (conversation_history ++ [HumanMessage user_input])%list
              body None
              (with_output [(nl ++ "--- Agent Thinking ---") ++ nl]
                 (with_output ["You: "] w)))).
Proof.
  intros Hexit Hnone.
  cbn [main_loop]. rewrite Hexit.
  unfold bind at 1. unfold write at 1. unfold bind at 1.
  rewrite turn_unfold.
  destruct (the_app _ body None _) as [[[m|]|e] w1] eqn:G; cbn [fst snd] in *.
  - now destruct (Hnone m).
  - unfold app in G.
    destruct (run_graph_final _ _ _ _ _ _ _ _ _ _ _ _ _ _ G) as (m & E & _).
    discriminate E.
  - now exists e.
Qed.

Lemma run_tools_total (calls : list ToolCall) (w : World) :
  (forall e, handle_tool_errors e <> None) ->
  exists outs w1, tools calls w = (Ok outs, w1).
Proof.
  intros Hh.
  pose proof (run_tools_effects http_get json_dumps py_str invocation_error
                handle_tool_errors calls w) as (_ & _ & _ & R).
  destruct (tools calls w) as [[outs|e] w1]; [now exists outs, w1|].
  destruct (R e eq_refl) as [_ N]. now destruct (Hh TypeError).
Qed.

Lemma run_graph_never_answers :
  (forall n messages,
     exists request,
       model n messages = Ok request /\ ai_tool_calls request <> []) ->
  (forall e, handle_tool_errors e <> None) ->
  forall (fuel : nat) (node : Node) (messages : list Message)
         (acc : option Message) (w : World),
    (node = action -> exists calls, last_tool_calls messages = Ok calls) ->
    fst (graph fuel node messages body acc w) = Raise GraphRecursionError.
Proof.
  intros Hmodel Hh.
  induction fuel as [|fuel IH]; intros node messages acc w Hlast;
    [reflexivity|].
  destruct node.
  - destruct (agent_step_world fuel messages acc w) as [texts ->].
    destruct (Hmodel (List.length (llm_log w)) messages) as (m & -> & C).
    destruct (ai_tool_calls m) as [|call calls] eqn:E; [now destruct C|].
    apply IH. intros _. eexists. apply last_tool_calls_snoc.
  - rewrite action_step_world.
    destruct (Hlast eq_refl) as (calls & ->).
    destruct (run_tools_total calls w Hh) as (outs & w1 & ->).
    apply IH. discriminate.
Qed.

(** X8: When the model asks for tools in every answer and the tool node
    turns every tool error into a message, the first turn of a session
    is cut by the runtime: the session ends with [GraphRecursionError]
    and never reads the next input. *)
Theorem endless_tool_requests_end_session
    (user_input : string) (rest : list string)
    (conversation_history : list Message) (w : World) :
  (forall n messages,
     exists request,
       model n messages = Ok request /\ ai_tool_calls request <> []) ->
  (forall e, handle_tool_errors e <> None) ->
  is_exit_command user_input = false ->
  fst (main_loop pretty_repr the_app (user_input :: rest)
         conversation_history w)
  = Raise GraphRecursionError.
Proof.
  intros Hmodel Hh Hexit.
  cbn [main_loop]. rewrite Hexit.
  unfold bind at 1. unfold write at 1. unfold bind at 1.
  rewrite turn_unfold. unfold app.
  match goal with
  | |- context [graph recursion_limit agent ?m body None ?w0] =>
      pose proof (run_graph_never_answers Hmodel Hh recursion_limit agent m
                    None w0 ltac:(discriminate)) as G;
      destruct (graph recursion_limit agent m body None w0) as [[[x|]|e] w1]
  end; cbn [fst] in G; try discriminate G.
  injection G as ->. reflexivity.
Qed.

(** X9: When the runtime allows two node executions or more and the
    model's first answer in a turn asks for no tool, the turn calls the
    model once, does not call [requests.get], appends the user's
    message and that answer to the history, and ends by writing the
    answer after "AI: ". *)
Theorem direct_answer_turn
    (user_input : string) (conversation_history : list Message)
    (w : World) (answer : AIMsg) :
  2 <= recursion_limit ->
  model (List.length (llm_log w))
    (conversation_history ++ [HumanMessage user_input]) = Ok answer ->
  ai_tool_calls answer = [] ->
  exists texts,
    turn pretty_repr the_app user_input conversation_history w
    = (Ok (conversation_history
             ++ [HumanMessage user_input; AIMessage answer])%list,
       with_output
         (texts ++ [(nl ++ "AI: " ++ ai_content answer ++ nl) ++ nl])
         (asked (conversation_history ++ [HumanMessage user_input]) w)).
Proof.
  intros Hlimit Hmodel Hcalls.
  rewrite turn_unfold. unfold app.
  destruct recursion_limit as [|[|fuel]]; try lia.
  match goal with
  | |- context [graph (S (S fuel)) agent ?m body None ?w0] =>
      destruct (agent_step_world (S fuel) m None w0) as [texts ->]
  end.
  cbn [llm_log with_output]. rewrite Hmodel, Hcalls.
  exists ([((nl ++ "--- Agent Thinking ---") ++ nl)%string]
            ++ texts ++ [("--- Checking for Tool Calls ---" ++ nl)%string;
                         ("Output from node 'agent':" ++ nl)%string;
                         (pretty_repr (AIMessage answer) ++ nl)%string;
                         ("---" ++ nl)%string])%list.
  f_equal; [now rewrite <- app_assoc|].
  unfold with_output, asked. simpl. rewrite <- !app_assoc. reflexivity.
Qed.

Lemma turns_dialogue (inputs : list string) :
  forall (conversation_history : list Message) (w : World)
         (history' : list Message) (w' : World),
    turns pretty_repr the_app inputs conversation_history w
      = (Ok history', w') ->
    exists replies,
      List.length replies = List.length inputs
      /\ Forall (fun reply => ai_tool_calls reply = []) replies
      /\ history' = (conversation_history ++ dialogue inputs replies)%list.
Proof.
  induction inputs as [|line inputs IH]; intros h w h' w' H.
  - injection H as <- <-. exists []. rewrite app_nil_r.
    repeat split; auto.
  - cbn [turns] in H. unfold bind at 1 in H. unfold write in H.
    unfold bind at 1 in H.
    destruct (turn pretty_repr the_app line h _) as [[h1|e] w1] eqn:T;
      [|discriminate].
    destruct (turn_app _ _ _ _ _ _ _ _ _ _ _ _ _ T) as (final & -> & C).
    destruct (IH _ _ _ _ H) as (replies & L & F & ->).
    exists (final :: replies). simpl. rewrite L.
    split; [reflexivity|]. split; [now constructor|].
    now rewrite <- app_assoc.
Qed.

(** X11: The history a session of the compiled workflow ends with is the
    user's lines, each followed by one answer that asks for no tool:
    no tool request and no tool result ever enters it. *)
Theorem session_history_is_dialogue
    (inputs : list string) (line : string) (rest : list string)
    (w : World) (history : list Message) (w' : World) :
  Forall (fun l => is_exit_command l = false) inputs ->
  is_exit_command line = true ->
  main pretty_repr the_app (inputs ++ line :: rest) w = (Ok history, w') ->
  exists replies,
    List.length replies = List.length inputs
    /\ Forall (fun reply => ai_tool_calls reply = []) replies
    /\ history = dialogue inputs replies.
Proof.
  intros Hin Hline H.
  unfold main in H. unfold bind at 1 in H. unfold print, write in H.
  rewrite (main_loop_turns _ _ _ _ Hin) in H. unfold bind at 1 in H.
  destruct (turns pretty_repr the_app inputs [] _) as [[h1|e] w1] eqn:T;
    [|discriminate].
  cbn [main_loop] in H. rewrite Hline in H.
  unfold bind, write, print, ret in H. injection H as <- _.
  destruct (turns_dialogue _ _ _ _ _ T) as (replies & L & F & ->).
  now exists replies.
Qed.

End RunFacts.

(** ** Sessions over any graph *)

Lemma last_final_split (l : list Message) :
  forall acc,
    (last_final l acc = acc
     /\ (forall x, In x l -> is_final_answer x = false))
    \/ (exists before m after,
          l = (before ++ m :: after)%list
          /\ is_final_answer m = true
          /\ (forall x, In x after -> is_final_answer x = false)
          /\ last_final l acc = Some m).
Proof.
  induction l as [|y l IH]; intros acc.
  - left. split; [reflexivity | intros x []].
  - cbn [last_final].
    destruct (IH (if is_final_answer y then Some y else acc))
      as [[E N]|(before & m & after & -> & Fm & Na & E)].
    + destruct (is_final_answer y) eqn:Fy.
      * right. exists [], y, l. repeat split; auto.
      * left. split; [exact E|]. intros x [<-|I]; [exact Fy | now apply N].
    + right. exists (y :: before), m, after. repeat split; auto.
Qed.

Section SessionFacts.

Variable pretty_repr : Message -> string.

Variable stream :
  list Message ->
  (Chunk -> option Message -> M (option Message)) ->
  option Message -> M (option Message).

(** X12: Whatever chunks the graph yields, the turn keeps the user's message
    and, after it, the last yielded message that is an [AIMessage]
    without tool calls -- or nothing more when no yielded message is
    one. *)
Theorem turn_keeps_last_final_answer
    (chunks : list Chunk) (user_input : string)
    (conversation_history : list Message) (w : World) :
  exists kept,
    fst (turn pretty_repr (fun _ => for_each chunks) user_input
           conversation_history w)
    = Ok (conversation_history ++ HumanMessage user_input :: kept)%list
    /\ ((kept = []
         /\ (forall x, In x (List.concat (List.map chunk_messages chunks)) ->
               is_final_answer x = false))
        \/ (exists before m after,
              kept = [m]
              /\ List.concat (List.map chunk_messages chunks)
                 = (before ++ m :: after)%list
              /\ is_final_answer m = true
              /\ (forall x, In x after -> is_final_answer x = false))).
Proof.
  rewrite turn_unfold.
  match goal with
  | |- context [for_each chunks ?b None ?w0] =>
      destruct (for_each_eq pretty_repr chunks None w0) as [texts ->]
  end.
  destruct (last_final_split (List.concat (List.map chunk_messages chunks))
              None)
    as [[E N]|(before & m & after & E0 & Fm & Na & E)]; rewrite E.
  - exists []. split; [reflexivity|]. now left.
  - exists [m]. split; [cbn [fst]; now rewrite <- app_assoc|].
    right. now exists before, m, after.
Qed.

Lemma main_loop_ok_inv (inputs : list string) :
  forall (h : list Message) (w : World) (h' : list Message) (w' : World),
    main_loop pretty_repr stream inputs h w = (Ok h', w') ->
    exists before line after w1,
      inputs = (before ++ line :: after)%list
      /\ Forall (fun l => is_exit_command l = false) before
      /\ is_exit_command line = true
      /\ turns pretty_repr stream before h w = (Ok h', w1)
      /\ w' = with_output [goodbye ++ nl] (with_output ["You: "] w1).
Proof.
  induction inputs as [|line inputs IH]; intros h w h' w' H.
  - discriminate H.
  - cbn [main_loop] in H. destruct (is_exit_command line) eqn:E.
    + injection H as <- <-. exists [], line, inputs, w.
      repeat split; auto.
    + unfold bind at 1 in H. unfold write at 1 in H. unfold bind at 1 in H.
      destruct (turn pretty_repr stream line h _) as [[h1|e] w1] eqn:T;
        [|discriminate].
      destruct (IH _ _ _ _ H)
        as (before & l & after & w2 & -> & F & El & Tn & ->).
      exists (line :: before), l, after, w2.
      split; [reflexivity|]. split; [now constructor|].
      split; [exact El|]. split; [|reflexivity].
      cbn [turns]. unfold bind at 1. unfold write at 1. unfold bind at 1.
      now rewrite T.
Qed.

(** X13: A session ends normally only at an exit keyword: some input line
    is one, no line before it is, and the last two texts written are
    the prompt and the goodbye.  When the lines run out first, or a
    turn fails, the session ends with an exception. *)
Theorem session_ends_only_on_exit_keyword
    (inputs : list string) (w : World)
    (history : list Message) (w' : World) :
  main pretty_repr stream inputs w = (Ok history, w') ->
  exists before line after earlier,
    inputs = (before ++ line :: after)%list
    /\ Forall (fun l => is_exit_command l = false) before
    /\ is_exit_command line = true
    /\ stdout w' = (earlier ++ ["You: "; (goodbye ++ nl)%string])%list.
Proof.
  unfold main, bind, print, write. intros H.
  destruct (main_loop_ok_inv _ _ _ _ _ H)
    as (before & line & after & w1 & -> & F & E & _ & ->).
  exists before, line, after, (stdout w1).
  repeat split; auto. cbn [stdout with_output].
  now rewrite <- app_assoc.
Qed.

(** X14: Lines typed after the first exit keyword are never read: the
    session is the same without them. *)
Theorem inputs_after_exit_ignored
    (before : list string) (line : string) (after : list string)
    (w : World) :
  is_exit_command line = true ->
  main pretty_repr stream (before ++ line :: after) w
  = main pretty_repr stream (before ++ [line]) w.
Proof.
  intros E.
  assert (G : forall h w0,
             main_loop pretty_repr stream (before ++ line :: after) h w0
             = main_loop pretty_repr stream (before ++ [line]) h w0).
  { induction before as [|l before IH]; intros h w0.
    - cbn [List.app main_loop]. now rewrite E.
    - cbn [List.app main_loop]. destruct (is_exit_command l); [reflexivity|].
      unfold bind, write.
      destruct (turn pretty_repr stream l h _) as [[h1|e] w1];
        [apply IH | reflexivity]. }
  unfold main, bind, print, write. apply G.
Qed.

End SessionFacts.

(** ** One tool round trip *)

Section RoundTrip.

Variable http_get : nat -> string -> HttpOutcome.
Variable json_dumps : pyval -> string.
Variable py_str : pyval -> string.
Variable model : nat -> list Message -> Res AIMsg.
Variable invocation_error : ToolCall -> string.
Variable handle_tool_errors : exn -> option string.
Variable recursion_limit : nat.
Variable pretty_repr : Message -> string.

Local Abbreviation weather := (get_weather http_get json_dumps py_str).
Local Abbreviation graph :=
  (run_graph http_get json_dumps py_str model invocation_error
     handle_tool_errors).
Local Abbreviation tools :=
  (run_tools http_get json_dumps py_str invocation_error handle_tool_errors).
Local Abbreviation the_app :=
  (app (A := option Message) http_get json_dumps py_str model
     invocation_error handle_tool_errors recursion_limit).
Local Abbreviation body := (on_chunk pretty_repr).

(** What the tool returns depends on the world only through the number
    of HTTP requests made so far. *)
Lemma get_weather_result_http (city : string) (w1 w2 : World) :
  http_log w1 = http_log w2 ->
  fst (weather (PStr city) w1) = fst (weather (PStr city) w2).
Proof.
  intros H. rewrite !get_weather_str, H.
  destruct (http_get _ _) as [d|r]; [reflexivity|].
  destruct (http_error_msg r); [reflexivity|].
  destruct (json_body r) as [data|msg]; [|reflexivity].
  destruct (extract_report city data) as [report|e]; [reflexivity|].
  destruct (is_parse_exn e); reflexivity.
Qed.

Lemma run_tools_single (call : ToolCall) (args : list (string * pyval))
    (city content : string) (w0 w : World) :
  tc_name call = "get_weather" ->
  tc_args call = PDict args ->
  assoc "city" args = Some (PStr city) ->
  fst (weather (PStr city) w0) = Ok content ->
  http_log w = http_log w0 ->
  tools [call] w
  = (Ok [ToolMessage content "get_weather" (tc_id call)],
     after_request city w).
Proof.
  intros Hname Hargs Hcity Hres Hlog.
  cbn [run_tools]. unfold bind at 1. unfold run_tool.
  rewrite Hname, Hargs, Hcity. cbn [String.eqb Ascii.eqb Bool.eqb andb].
  unfold try_except. unfold bind at 1.
  pose proof (get_weather_world http_get json_dumps py_str city w) as Hw.
  pose proof (get_weather_result_http city w w0 Hlog) as Hr.
  rewrite Hres in Hr.
  destruct (weather (PStr city) w) as [r w1]. cbn [fst snd] in Hw, Hr.
  subst r w1. reflexivity.
Qed.

(** X10: A turn with one tool round trip, when the runtime allows four
    node executions or more: the model first asks for [get_weather]
    with a string [city], the tool returns a text, and on the messages
    extended by the request and that text the model answers without
    tool calls.  The turn then makes those two model calls and one call
    of [requests.get], with the weather URL of the city, and keeps the
    user's message and the final answer. *)
Theorem single_tool_round_trip
    (user_input : string) (conversation_history : list Message)
    (w : World) (request final : AIMsg) (call : ToolCall)
    (args : list (string * pyval)) (city content : string) :
  4 <= recursion_limit ->
  model (List.length (llm_log w))
    (conversation_history ++ [HumanMessage user_input]) = Ok request ->
  ai_tool_calls request = [call] ->
  tc_name call = "get_weather" ->
  tc_args call = PDict args ->
  assoc "city" args = Some (PStr city) ->
  fst (weather (PStr city) w) = Ok content ->
  model (List.length (llm_log w) + 1)
    (conversation_history
       ++ [ HumanMessage user_input; AIMessage request;
            ToolMessage content "get_weather" (tc_id call) ]) = Ok final ->
  ai_tool_calls final = [] ->
  exists w',
    turn pretty_repr the_app user_input conversation_history w
    = (Ok (conversation_history
             ++ [HumanMessage user_input; AIMessage final])%list, w')
    /\ http_log w' = (http_log w ++ [weather_url city])%list
    /\ llm_log w'
       = (llm_log w
            ++ [ (conversation_history ++ [HumanMessage user_input])%list;
                 (conversation_history
                    ++ [ HumanMessage user_input; AIMessage request;
                         ToolMessage content "get_weather" (tc_id call) ])%list
               ])%list.
Proof.
  intros Hlimit Hm1 Hcalls Hname Hargs Hcity Hres Hm2 Hfinal.
  rewrite turn_unfold. unfold app.
  destruct recursion_limit as [|[|[|[|fuel]]]]; try lia.
  match goal with
  | |- context [graph _ agent ?m body None ?w0] =>
      destruct (agent_step_world http_get json_dumps py_str model
                  invocation_error handle_tool_errors pretty_repr
                  (S (S (S fuel))) m None w0) as [texts1 ->]
  end.
  cbn [llm_log with_output]. rewrite Hm1, Hcalls.
  rewrite action_step_world, last_tool_calls_snoc, Hcalls.
  match goal with
  | |- context [tools [call] ?w1] =>
      rewrite (run_tools_single call args city content w w1
                 Hname Hargs Hcity Hres eq_refl)
  end.
  match goal with
  | |- context [graph _ agent ?m body None ?w0] =>
      destruct (agent_step_world http_get json_dumps py_str model
                  invocation_error handle_tool_errors pretty_repr
                  (S fuel) m None w0) as [texts2 ->]
  end.
  cbn [llm_log with_output asked after_request].
  rewrite List.length_app. cbn [List.length].
  rewrite <- !app_assoc. cbn [List.app].
  rewrite Hm2, Hfinal. cbv beta iota.
  rewrite <- !app_assoc. cbn [List.app].
  eexists. split; [reflexivity|].
  cbn [http_log llm_log with_output asked after_request].
  rewrite <- !app_assoc. split; reflexivity.
Qed.

End RoundTrip.

(** ** The further properties on the sample environments *)

Lemma extract_report_iff_shape_sunny :
  extract_report "London" Sample.sunny_body
  = Ok (PDict [ ("city", PStr "London");
                ("temperature_celsius", PStr "18");
                ("temperature_fahrenheit", PStr "64");
                ("description", PStr "Sunny");
                ("humidity_percent", PStr "40");
                ("wind_speed_kmph", PStr "10") ]).
Proof.
  apply (proj2 (extract_report_iff_shape "London" Sample.sunny_body _)).
  exists (PStr "Sunny"), (PStr "18"), (PStr "64"), (PStr "40"), (PStr "10").
  split; [|reflexivity].
  unfold report_shape. do 5 eexists. repeat split; reflexivity.
Defined.

Lemma weather_url_verbatim_london :
  weather_url "London" = "https://wttr.in/" ++ "London" ++ "?format=j1".
Proof. apply (weather_url_verbatim "London"). reflexivity. Defined.

Lemma exit_command_is_bare_keyword_quit :
  String.length "QuIt" = 4
  /\ all_letters "QuIt" = true
  /\ contains_char " " "QuIt" = false.
Proof. apply (exit_command_is_bare_keyword "QuIt"). reflexivity. Defined.

Lemma get_weather_empty_conditions_london :
  get_weather Scenario.empty_conditions Sample.dumps Sample.py_str
    (PStr "London") Sample.w0
  = (Ok ("Error parsing weather data. The city might be invalid. "
           ++ "Details: list index out of range"),
     after_request "London" Sample.w0).
Proof.
  eapply (get_weather_empty_conditions Scenario.empty_conditions Sample.dumps
            Sample.py_str "London" Sample.w0).
  - reflexivity.
  - left. reflexivity.
  - reflexivity.
  - reflexivity.
Defined.

Lemma endless_tool_requests_end_session_sample :
  fst (main_loop Sample.pretty_repr
         (app (A := option Message) Sample.sunny Sample.dumps Sample.py_str
            Sample.always_tool Sample.invocation_error
            Sample.handle_tool_errors 25)
         ("How is Paris?" :: ["quit"]) [] Sample.w0)
  = Raise GraphRecursionError.
Proof.
  apply (endless_tool_requests_end_session Sample.sunny Sample.dumps
           Sample.py_str Sample.always_tool Sample.invocation_error
           Sample.handle_tool_errors 25 Sample.pretty_repr).
  - intros n messages. exists Sample.paris_request.
    split; [reflexivity | discriminate].
  - intros e. discriminate.
  - reflexivity.
Defined.

Lemma direct_answer_turn_sample :
  exists texts,
    turn Sample.pretty_repr
      (app (A := option Message) Sample.refused Sample.dumps Sample.py_str
         Scenario.direct Sample.invocation_error Sample.handle_tool_errors 25)
      "Hello" [] Sample.w0
    = (Ok ([] ++ [HumanMessage "Hello"; AIMessage Sample.paris_answer])%list,
       with_output
         (texts ++ [((nl ++ "AI: " ++ ai_content Sample.paris_answer ++ nl)
                       ++ nl)%string])
         (asked ([] ++ [HumanMessage "Hello"]) Sample.w0)).
Proof.
  apply (direct_answer_turn Sample.refused Sample.dumps Sample.py_str
           Scenario.direct Sample.invocation_error Sample.handle_tool_errors
           25 Sample.pretty_repr "Hello" [] Sample.w0 Sample.paris_answer).
  - lia.
  - reflexivity.
  - reflexivity.
Defined.

Lemma session_history_is_dialogue_paris :
  exists replies,
    List.length replies = List.length ["How is Paris?"; "And now?"]
    /\ Forall (fun reply => ai_tool_calls reply = []) replies
    /\ [ HumanMessage "How is Paris?"; AIMessage Sample.paris_answer;
         HumanMessage "And now?"; AIMessage Sample.paris_answer ]
       = dialogue ["How is Paris?"; "And now?"] replies.
Proof.
  eapply (session_history_is_dialogue Sample.sunny Sample.dumps Sample.py_str
            Sample.tool_then_answer Sample.invocation_error
            Sample.handle_tool_errors 25 Sample.pretty_repr
            ["How is Paris?"; "And now?"] "EXIT" ["never read"] Sample.w0).
  - repeat constructor.
  - reflexivity.
  - vm_compute. reflexivity.
Defined.

Lemma session_ends_only_on_exit_keyword_sample :
  exists before line after earlier,
    ["Hello"; "exit"; "never read"] = (before ++ line :: after)%list
    /\ Forall (fun l => is_exit_command l = false) before
    /\ is_exit_command line = true
    /\ stdout (snd (main Sample.pretty_repr Sample.silent
                      ["Hello"; "exit"; "never read"] Sample.w0))
       = (earlier ++ ["You: "; (goodbye ++ nl)%string])%list.
Proof.
  eapply (session_ends_only_on_exit_keyword Sample.pretty_repr Sample.silent
            ["Hello"; "exit"; "never read"] Sample.w0).
  vm_compute. reflexivity.
Defined.

Lemma inputs_after_exit_ignored_sample :
  main Sample.pretty_repr Sample.sunny_app
    (["How is Paris?"] ++ "Quit" :: ["And now?"; "quit"]) Sample.w0
  = main Sample.pretty_repr Sample.sunny_app
      (["How is Paris?"] ++ ["Quit"]) Sample.w0.
Proof.
  apply (inputs_after_exit_ignored Sample.pretty_repr Sample.sunny_app
           ["How is Paris?"] "Quit" ["And now?"; "quit"] Sample.w0).
  reflexivity.
Defined.

Lemma single_tool_round_trip_paris :
  exists w',
    turn Sample.pretty_repr Sample.sunny_app "How is Paris?" [] Sample.w0
    = (Ok ([] ++ [HumanMessage "How is Paris?";
                  AIMessage Sample.paris_answer])%list, w')
    /\ http_log w' = (http_log Sample.w0 ++ [weather_url "Paris"])%list
    /\ llm_log w'
       = (llm_log Sample.w0
            ++ [ ([] ++ [HumanMessage "How is Paris?"])%list;
                 ([] ++ [ HumanMessage "How is Paris?";
                          AIMessage Sample.paris_request;
                          ToolMessage
                            (Sample.dumps
                               (weather_report "Paris" (PStr "18") (PStr "64")
                                  (PStr "Sunny") (PStr "40") (PStr "10")))
                            "get_weather"
                            (tc_id Sample.paris_call) ])%list ])%list.
Proof.
  eapply (single_tool_round_trip Sample.sunny Sample.dumps Sample.py_str
            Sample.tool_then_answer Sample.invocation_error
            Sample.handle_tool_errors 25 Sample.pretty_repr
            "How is Paris?" [] Sample.w0 Sample.paris_request
            Sample.paris_answer Sample.paris_call
            [("city", PStr "Paris")] "Paris").
  - lia.
  - reflexivity.
  - reflexivity.
  - reflexivity.
  - reflexivity.
  - reflexivity.
  - reflexivity.
  - reflexivity.
  - reflexivity.
Defined.

(** The turn of C4 that is cut: the model asks for the tool in every
    answer; the loop ends with the exception of the runtime, the
    fallback text is not written and the second line is not read. *)
Lemma turn_without_final_answer_ends_session_cut :
  (exists e,
     main_loop Sample.pretty_repr
       (app (A := option Message) Sample.sunny Sample.dumps Sample.py_str
          Sample.always_tool Sample.invocation_error
          Sample.handle_tool_errors 25)
       ("How is Paris?" :: ["And now?"; "quit"]) [] Sample.w0
     = (Raise e,
        snd (app (A := option Message) Sample.sunny Sample.dumps
               Sample.py_str Sample.always_tool Sample.invocation_error
               Sample.handle_tool_errors 25
               ([] ++ [HumanMessage "How is Paris?"])%list
               (on_chunk Sample.pretty_repr) None
               (with_output [(nl ++ "--- Agent Thinking ---") ++ nl]
                  (with_output ["You: "] Sample.w0)))))
  /\ fst (main_loop Sample.pretty_repr
            (app (A := option Message) Sample.sunny Sample.dumps
               Sample.py_str Sample.always_tool Sample.invocation_error
               Sample.handle_tool_errors 25)
            ("How is Paris?" :: ["And now?"; "quit"]) [] Sample.w0)
     = Raise GraphRecursionError
  /\ existsb (String.eqb (fallback ++ nl))
       (stdout (snd (main_loop Sample.pretty_repr
                       (app (A := option Message) Sample.sunny Sample.dumps
                          Sample.py_str Sample.always_tool
                          Sample.invocation_error
                          Sample.handle_tool_errors 25)
                       ("How is Paris?" :: ["And now?"; "quit"]) []
                       Sample.w0)))
     = false
  /\ List.length
       (List.filter (String.eqb "You: ")
          (stdout (snd (main_loop Sample.pretty_repr
                          (app (A := option Message) Sample.sunny Sample.dumps
                             Sample.py_str Sample.always_tool
                             Sample.invocation_error
                             Sample.handle_tool_errors 25)
                          ("How is Paris?" :: ["And now?"; "quit"]) []
                          Sample.w0))))
     = 1.
Proof.
  split; [|split; [|split]]; try (vm_compute; reflexivity).
  apply (turn_without_final_answer_ends_session Sample.sunny Sample.dumps
           Sample.py_str Sample.always_tool Sample.invocation_error
           Sample.handle_tool_errors 25 Sample.pretty_repr
           "How is Paris?" ["And now?"; "quit"] [] Sample.w0).
  - reflexivity.
  - intros m. vm_compute. discriminate.
Defined.
